(** * nifti-viewer: slice navigation and transfer functions of [main.py]

    A shallow embedding of the 2D orthogonal viewer ([ImageViewer]) and of
    the transfer-function builder of the 3D renderer ([VolumeRenderer]).

    Conventions of the embedding:
    - Python integers are [Z]; [//] is [Z.div] (floor division).
    - numpy scalars and Python floats are exact rationals [Q] where a method
      only stores, compares or passes them on; where the result depends on
      the rounding of IEEE doubles (the pixel arithmetic of [display_image]
      and the index arithmetic of the click handlers) the computation is
      given a second time over binary64 floats, in [ImageViewer.Double].
    - the Python dictionaries keyed by plane name are [gmap string _].
    - a method of [ImageViewer] is a function from the object's state to an
      outcome (normal return or a raised exception) and the state left behind.
    - the Qt widgets the methods talk to are modelled by the properties the
      code reads back: a slider by its range and value, a label by its size
      and the size of the pixmap it shows. *)

From Stdlib Require Import ZArith QArith Qround Qminmax Lqa Lia List.
From Stdlib Require Floats Uint63.
From stdpp Require Import base tactics option list gmap strings.

Open Scope Z_scope.

(** ** Python values *)

Module Py.

Inductive exn :=
  AttributeError | IndexError | KeyError | ValueError | OverflowError.

Inductive outcome (A : Type) :=
| Return (a : A)
| Raise (e : exn).
Arguments Return {A} a.
Arguments Raise {A} e.

(** [int(x)] on an exact number: truncation toward zero. *)
Definition int (q : Q) : Z :=
  if Qle_bool 0 q then Qfloor q else Qceiling q.

(** [l[i]]: negative indices count from the end, anything else outside the
    list is an [IndexError] (here [None]). *)
Definition index {A : Type} (l : list A) (i : Z) : option A :=
  let n := Z.of_nat (length l) in
  if (0 <=? i) && (i <? n) then l !! Z.to_nat i
  else if (- n <=? i) && (i <? 0) then l !! Z.to_nat (n + i)
  else None.

End Py.

(** ** IEEE 754 doubles

    Python floats and [float64] scalars, as the binary64 floats of the
    kernel, for the computations whose result depends on rounding. *)

Module f64.

Definition t := PrimFloat.float.

(** [float(n)] for an integer below [2^63] in magnitude (exact below
    [2^53]). *)
Definition of_Z (z : Z) : t :=
  if 0 <=? z then PrimFloat.of_uint63 (Uint63.of_Z z)
  else PrimFloat.opp (PrimFloat.of_uint63 (Uint63.of_Z (- z))).

(** The double of a rational held as [n / d], computed as that division. *)
Definition of_Q (q : Q) : t :=
  PrimFloat.div (of_Z (Qnum q)) (of_Z (Z.pos (Qden q))).

Definition is_nan (x : t) : bool := negb (PrimFloat.eqb x x).


(** The integer part of a finite double (truncation toward zero). *)
Definition trunc (x : t) : option Z :=
  match FloatOps.Prim2SF x with
  | SpecFloat.S754_zero _ => Some 0
  | SpecFloat.S754_finite s m e =>
      let n := if 0 <=? e then Z.pos m * 2 ^ e else Z.pos m / 2 ^ (- e) in
      Some (if s then - n else n)
  | _ => None
  end.

(** Python's [int(x)]: [ValueError] on nan, [OverflowError] on an
    infinity. *)
Definition int (x : t) : Py.outcome Z :=
  match FloatOps.Prim2SF x with
  | SpecFloat.S754_nan => Py.Raise Py.ValueError
  | SpecFloat.S754_infinity _ => Py.Raise Py.OverflowError
  | _ => Py.Return (default 0 (trunc x))
  end.

(** [np.minimum] and [np.maximum]: a nan operand is the result. *)
Definition minimum (a b : t) : t :=
  if PrimFloat.leb a b || is_nan a then a else b.

Definition maximum (a b : t) : t :=
  if PrimFloat.leb b a || is_nan a then a else b.

(** [np.clip(x, lo, hi)] is [minimum(maximum(x, lo), hi)]. *)
Definition clip (x lo hi : t) : t := minimum (maximum x lo) hi.

(** [astype(np.uint8)]: the C cast of a double, which drops the fraction;
    of the values [np.clip(_, 0, 255)] lets through only nan has no integer
    part, and x86-64 then stores 0. *)
Definition astype_uint8 (x : t) : Z := default 0 (trunc x) mod 256.

(** [qRound(d)] of Qt 5. *)
Definition qRound (d : t) : Z :=
  if PrimFloat.leb (of_Z 0) d
  then default 0 (trunc (PrimFloat.add d (PrimFloat.div (of_Z 1) (of_Z 2))))
  else
    let below := default 0 (trunc (PrimFloat.sub d (of_Z 1))) in
    default 0 (trunc (PrimFloat.add (PrimFloat.sub d (of_Z below))
                                    (PrimFloat.div (of_Z 1) (of_Z 2))))
    + below.

End f64.

(** ** numpy arrays

    A 2D array is a list of rows, a 3D array a list of 2D arrays
    (axis 0 outermost), as [ndarray] indexes them. *)

Module np.

Definition ndarray2 := list (list Q).
Definition ndarray3 := list (list (list Q)).

(** [a.shape] *)
Definition shape2 (a : ndarray2) : Z * Z :=
  (Z.of_nat (length a), Z.of_nat (length (hd [] a))).

Definition shape3 (a : ndarray3) : Z * Z * Z :=
  (Z.of_nat (length a),
   Z.of_nat (length (hd [] a)),
   Z.of_nat (length (hd [] (hd [] a)))).

(** Every plane has [shape[1]] rows and every row [shape[2]] entries, and no
    axis is empty: the arrays the loader delivers. *)
Definition rectangular (a : ndarray3) : bool :=
  let '(d0, d1, d2) := shape3 a in
  (1 <=? d0) && (1 <=? d1) && (1 <=? d2) &&
  forallb (fun plane =>
             (Z.of_nat (length plane) =? d1) &&
             forallb (fun row => Z.of_nat (length row) =? d2) plane) a.

(** A 2D array of [h] rows of [w] entries each. *)
Definition is_grid (a : ndarray2) (h w : Z) : Prop :=
  Z.of_nat (length a) = h /\ Forall (fun row => Z.of_nat (length row) = w) a.

(** [np.min(a)] and [np.max(a)] over all entries; empty input raises. *)
Definition reduce (f : Q -> Q -> Q) (l : list Q) : option Q :=
  match l with
  | [] => None
  | x :: xs => Some (fold_left f xs x)
  end.

Definition min (a : ndarray2) : option Q := reduce Qmin (concat a).
Definition max (a : ndarray2) : option Q := reduce Qmax (concat a).

Definition min3 (a : ndarray3) : option Q := reduce Qmin (concat (concat a)).
Definition max3 (a : ndarray3) : option Q := reduce Qmax (concat (concat a)).

(** [a[i, :, :]], [a[:, i, :]] and [a[:, :, i]] *)
Definition take0 (a : ndarray3) (i : Z) : option ndarray2 :=
  Py.index a i.

Definition take1 (a : ndarray3) (i : Z) : option ndarray2 :=
  mapM (fun plane => Py.index plane i) a.

Definition take2 (a : ndarray3) (i : Z) : option ndarray2 :=
  mapM (fun plane => mapM (fun row => Py.index row i) plane) a.

(** [np.fliplr] reverses every row, [np.flipud] the order of the rows. *)
Definition fliplr (a : ndarray2) : ndarray2 := map (@rev Q) a.
Definition flipud (a : ndarray2) : ndarray2 := rev a.

Definition zeros_like (a : ndarray2) : ndarray2 :=
  map (map (fun _ => 0%Q)) a.

(** [np.clip(x, lo, hi)] is [minimum(maximum(x, lo), hi)]. *)
Definition clip (x lo hi : Q) : Q := Qmin (Qmax x lo) hi.

(** [astype(np.uint8)] of a float: drop the fraction, keep the low byte. *)
Definition astype_uint8 (x : Q) : Z := Py.int x mod 256.

End np.

(** ** Qt widgets *)

Module Qt.

Record QSize := mkQSize { wd : Z; ht : Z }.

(** *** QSlider: an integer value kept inside [minimum, maximum] *)

Record QSlider := mkQSlider { minimum : Z; maximum : Z; value : Z }.

Definition qBound (lo v hi : Z) : Z := Z.max lo (Z.min hi v).

(** A fresh slider has range 0..99 and value 0. *)
Definition new_slider : QSlider :=
  {| minimum := 0; maximum := 99; value := 0 |}.

Definition setValue (v : Z) (sl : QSlider) : QSlider :=
  {| minimum := minimum sl;
     maximum := maximum sl;
     value := qBound (minimum sl) v (maximum sl) |}.

Definition setRange (lo hi : Z) (sl : QSlider) : QSlider :=
  let hi' := Z.max lo hi in
  {| minimum := lo; maximum := hi'; value := qBound lo (value sl) hi' |}.

Definition setMaximum (hi : Z) (sl : QSlider) : QSlider :=
  setRange (Z.min (minimum sl) hi) hi sl.

(** *** QLabel: its size and the size of the pixmap it shows *)

Record QLabel := mkQLabel { width : Z; height : Z; pixmap : option QSize }.

Definition size (lbl : QLabel) : QSize :=
  {| wd := width lbl; ht := height lbl |}.

Definition setPixmap (pm : QSize) (lbl : QLabel) : QLabel :=
  {| width := width lbl; height := height lbl; pixmap := Some pm |}.

(** [label.rect().contains(pos)]: the rectangle is [0,0,width,height]. *)
Definition rect_contains (lbl : QLabel) (pos : Z * Z) : bool :=
  (0 <=? fst pos) && (fst pos <=? width lbl - 1) &&
  (0 <=? snd pos) && (snd pos <=? height lbl - 1).

(** *** Pixmap geometry

    The two toolkit computations whose results the viewer reads back:
    [pixmap.scaled(target, Qt.KeepAspectRatio, _)] (only the size of the
    result matters) and [size * factor]. *)

Class Toolkit := {
  scaled : QSize -> QSize -> QSize;
  size_times : QSize -> Q -> QSize
}.

(** Qt 5's own arithmetic, used to run the model on concrete inputs. *)

(** [QSize::scaled(target, Qt::KeepAspectRatio)], in 64-bit integers. *)
Definition keep_aspect_ratio (s target : QSize) : QSize :=
  if (wd s =? 0) || (ht s =? 0) then target
  else
    let rw := Z.quot (ht target * wd s) (ht s) in
    if rw <=? wd target then {| wd := rw; ht := ht target |}
    else {| wd := wd target; ht := Z.quot (wd target * ht s) (wd s) |}.

(** [QPixmap::scaled]: a null pixmap and an empty target give a null
    pixmap; otherwise no side of the result is below 1. *)
Definition qt5_scaled (s target : QSize) : QSize :=
  if (wd s <=? 0) || (ht s <=? 0) then {| wd := 0; ht := 0 |}
  else if (wd target <=? 0) || (ht target <=? 0) then {| wd := 0; ht := 0 |}
  else
    let n := keep_aspect_ratio s target in
    {| wd := Z.max (wd n) 1; ht := Z.max (ht n) 1 |}.

(** [QSize * qreal]: each side is the [qRound] of the product in doubles. *)
Definition qt5_size_times (s : QSize) (c : Q) : QSize :=
  let c := f64.of_Q c in
  {| wd := f64.qRound (PrimFloat.mul (f64.of_Z (wd s)) c);
     ht := f64.qRound (PrimFloat.mul (f64.of_Z (ht s)) c) |}.

Definition qt5 : Toolkit :=
  {| scaled := qt5_scaled; size_times := qt5_size_times |}.

End Qt.

Import Py Qt.

(** ** ImageViewer: the 2D orthogonal viewer *)

Module ImageViewer.

(** The attributes of the object that the methods below read or write. *)
Record t := mk {
  brightness : gmap string Q;
  contrast : gmap string Q;
  image_array : option np.ndarray3;
  current_crosshair : option (Z * Z);
  zoom_level_xy : Q;
  zoom_level_xz : Q;
  zoom_level_yz : Q;
  playing_state : gmap string bool;
  xy_slider : QSlider;
  xz_slider : QSlider;
  zy_slider : QSlider;
  xy_label : QLabel;
  xz_label : QLabel;
  zy_label : QLabel
}.

(** [__init__] followed by [initUI], for labels laid out at the given
    sizes. *)
Definition init (lxy lxz lzy : QSize) : t :=
  {| brightness := {[ "xy" := 0%Q; "xz" := 0%Q; "zy" := 0%Q ]};
     contrast := {[ "xy" := 1%Q; "xz" := 1%Q; "zy" := 1%Q ]};
     image_array := None;
     current_crosshair := None;
     zoom_level_xy := 0.4%Q;
     zoom_level_xz := 0.4%Q;
     zoom_level_yz := 0.4%Q;
     playing_state := {[ "xy" := false; "xz" := false; "yz" := false ]};
     xy_slider := new_slider;
     xz_slider := new_slider;
     zy_slider := new_slider;
     xy_label := {| width := wd lxy; height := ht lxy; pixmap := None |};
     xz_label := {| width := wd lxz; height := ht lxz; pixmap := None |};
     zy_label := {| width := wd lzy; height := ht lzy; pixmap := None |} |}.

(** *** Attribute assignment *)

Definition set_brightness (d : gmap string Q) (s : t) : t :=
  mk d (contrast s) (image_array s) (current_crosshair s)
     (zoom_level_xy s) (zoom_level_xz s) (zoom_level_yz s) (playing_state s)
     (xy_slider s) (xz_slider s) (zy_slider s)
     (xy_label s) (xz_label s) (zy_label s).

Definition set_contrast (d : gmap string Q) (s : t) : t :=
  mk (brightness s) d (image_array s) (current_crosshair s)
     (zoom_level_xy s) (zoom_level_xz s) (zoom_level_yz s) (playing_state s)
     (xy_slider s) (xz_slider s) (zy_slider s)
     (xy_label s) (xz_label s) (zy_label s).

Definition set_image_array (a : option np.ndarray3) (s : t) : t :=
  mk (brightness s) (contrast s) a (current_crosshair s)
     (zoom_level_xy s) (zoom_level_xz s) (zoom_level_yz s) (playing_state s)
     (xy_slider s) (xz_slider s) (zy_slider s)
     (xy_label s) (xz_label s) (zy_label s).

Definition set_current_crosshair (c : option (Z * Z)) (s : t) : t :=
  mk (brightness s) (contrast s) (image_array s) c
     (zoom_level_xy s) (zoom_level_xz s) (zoom_level_yz s) (playing_state s)
     (xy_slider s) (xz_slider s) (zy_slider s)
     (xy_label s) (xz_label s) (zy_label s).

(** The three slice sliders and the three labels are objects the methods
    hold references to. *)
Inductive slider_ref := XY_slider | XZ_slider | ZY_slider.
Inductive label_ref := XY_label | XZ_label | ZY_label.

Definition slider (r : slider_ref) (s : t) : QSlider :=
  match r with
  | XY_slider => xy_slider s
  | XZ_slider => xz_slider s
  | ZY_slider => zy_slider s
  end.

Definition label (r : label_ref) (s : t) : QLabel :=
  match r with
  | XY_label => xy_label s
  | XZ_label => xz_label s
  | ZY_label => zy_label s
  end.

Definition on_slider (r : slider_ref) (f : QSlider -> QSlider) (s : t) : t :=
  mk (brightness s) (contrast s) (image_array s) (current_crosshair s)
     (zoom_level_xy s) (zoom_level_xz s) (zoom_level_yz s) (playing_state s)
     (match r with XY_slider => f (xy_slider s) | _ => xy_slider s end)
     (match r with XZ_slider => f (xz_slider s) | _ => xz_slider s end)
     (match r with ZY_slider => f (zy_slider s) | _ => zy_slider s end)
     (xy_label s) (xz_label s) (zy_label s).

Definition on_label (r : label_ref) (f : QLabel -> QLabel) (s : t) : t :=
  mk (brightness s) (contrast s) (image_array s) (current_crosshair s)
     (zoom_level_xy s) (zoom_level_xz s) (zoom_level_yz s) (playing_state s)
     (xy_slider s) (xz_slider s) (zy_slider s)
     (match r with XY_label => f (xy_label s) | _ => xy_label s end)
     (match r with XZ_label => f (xz_label s) | _ => xz_label s end)
     (match r with ZY_label => f (zy_label s) | _ => zy_label s end).

Definition set_zoom_level_xy (z : Q) (s : t) : t :=
  mk (brightness s) (contrast s) (image_array s) (current_crosshair s)
     z (zoom_level_xz s) (zoom_level_yz s) (playing_state s)
     (xy_slider s) (xz_slider s) (zy_slider s)
     (xy_label s) (xz_label s) (zy_label s).

Definition set_zoom_level_xz (z : Q) (s : t) : t :=
  mk (brightness s) (contrast s) (image_array s) (current_crosshair s)
     (zoom_level_xy s) z (zoom_level_yz s) (playing_state s)
     (xy_slider s) (xz_slider s) (zy_slider s)
     (xy_label s) (xz_label s) (zy_label s).

Definition set_zoom_level_yz (z : Q) (s : t) : t :=
  mk (brightness s) (contrast s) (image_array s) (current_crosshair s)
     (zoom_level_xy s) (zoom_level_xz s) z (playing_state s)
     (xy_slider s) (xz_slider s) (zy_slider s)
     (xy_label s) (xz_label s) (zy_label s).

Definition set_playing_state (d : gmap string bool) (s : t) : t :=
  mk (brightness s) (contrast s) (image_array s) (current_crosshair s)
     (zoom_level_xy s) (zoom_level_xz s) (zoom_level_yz s) d
     (xy_slider s) (xz_slider s) (zy_slider s)
     (xy_label s) (xz_label s) (zy_label s).

(** The three zoom sliders, which [adjust_zoom] reads. [initUI] gives each
    the range 40..200 and the value 40. *)
Record ZoomSliders := mkZoomSliders {
  xy_zoom_slider : QSlider;
  xz_zoom_slider : QSlider;
  zy_zoom_slider : QSlider
}.

Definition new_zoom_slider : QSlider :=
  setValue 40 (setRange 40 200 new_slider).

(** *** Methods as state transformers that may raise *)

Definition M (A : Type) : Type := t -> outcome A * t.

Definition ret {A : Type} (a : A) : M A := fun s => (Return a, s).

Definition raise {A : Type} (e : exn) : M A := fun s => (Raise e, s).

Definition bind {A B : Type} (m : M A) (k : A -> M B) : M B :=
  fun s =>
    match m s with
    | (Return a, s') => k a s'
    | (Raise e, s') => (Raise e, s')
    end.

Definition gets {A : Type} (f : t -> A) : M A := fun s => (Return (f s), s).

Definition modify (f : t -> t) : M unit := fun s => (Return tt, f s).

(** A lookup that raises [e] when there is nothing to find. *)
Definition orraise {A : Type} (e : exn) (o : option A) : M A :=
  match o with
  | Some a => ret a
  | None => raise e
  end.

Declare Scope py_scope.
Delimit Scope py_scope with py.
Notation "'let!' x ':=' c 'in' k" := (bind c (fun x => k))
  (at level 10, x name, c at level 100, k at level 200) : py_scope.
Notation "'let!' ' p ':=' c 'in' k" := (bind c (fun p => k))
  (at level 10, p pattern, c at level 100, k at level 200) : py_scope.
Notation "c '>>' k" := (bind c (fun _ => k))
  (at level 100, k at level 200, right associativity) : py_scope.
Open Scope py_scope.

(** [self.brightness[plane]]: a missing key is a [KeyError]. *)
Definition getitem {V : Type} (d : gmap string V) (k : string) : M V :=
  orraise KeyError (d !! k).

(** [self.image_array.shape]: [None] has no attribute [shape]. *)
Definition image_array_shape : M (Z * Z * Z) :=
  let! a := gets image_array in
  orraise AttributeError (np.shape3 <$> a).

(** *** The pixel pipeline of [display_image]

    Here in exact arithmetic, which is what the code computes on a flat
    slice and wherever no operation rounds; [Double] below has the same
    pipeline in doubles. *)

(** Linear rescaling of the slice to [0, 255], or zeros for a flat slice. *)
Definition normalize (slice_image : np.ndarray2) (min_val max_val : Q)
  : np.ndarray2 :=
  if negb (Qeq_bool max_val min_val)
  then map (map (fun v => ((v - min_val) / (max_val - min_val) * 255)%Q))
           slice_image
  else np.zeros_like slice_image.

(** Contrast multiplies, brightness adds, then clip and cast to 8 bits. *)
Definition adjust (brightness contrast : Q) (x : Q) : Z :=
  np.astype_uint8 (np.clip (x * contrast + brightness) 0 255).

(** The 8-bit buffer handed to [QImage]; [None] stands for the [ValueError]
    of [np.min] on an empty slice. *)
Definition display_pixels (slice_image : np.ndarray2) (brightness contrast : Q)
  : option (list (list Z)) :=
  min_val ← np.min slice_image;
  max_val ← np.max slice_image;
  Some (map (map (adjust brightness contrast))
            (normalize slice_image min_val max_val)).

Section Methods.

Context {tk : Toolkit}.

(** The crosshair overlay is painted on the pixmap and leaves the
    attributes alone; the label then shows the pixmap scaled by the zoom
    factor. Returns the 8-bit buffer of the unscaled pixmap. *)
Definition display_image (slice_image : np.ndarray2) (lbl : label_ref)
           (plane : string) (zoom_factor : Q) : M (list (list Z)) :=
  let '(height, width) := np.shape2 slice_image in
  let! min_val := orraise ValueError (np.min slice_image) in
  let! max_val := orraise ValueError (np.max slice_image) in
  let slice_image := normalize slice_image min_val max_val in
  let! brightness := (let! d := gets brightness in getitem d plane) in
  let! contrast := (let! d := gets contrast in getitem d plane) in
  let slice_image := map (map (adjust brightness contrast)) slice_image in
  let pixmap := {| wd := width; ht := height |} in
  let scaled_pixmap := scaled pixmap (size_times pixmap zoom_factor) in
  modify (on_label lbl (setPixmap scaled_pixmap)) >>
  ret slice_image.

Definition update_xy_image (slice_idx : Z) : M unit :=
  let! a := gets image_array in
  match a with
  | Some image_array =>
      let! slice_image := orraise IndexError (np.take0 image_array slice_idx) in
      let slice_image := np.flipud (np.fliplr slice_image) in
      let! zoom := gets zoom_level_xy in
      display_image slice_image XY_label "xy" zoom >> ret tt
  | None => ret tt
  end.

Definition update_xz_image (slice_idx : Z) : M unit :=
  let! a := gets image_array in
  match a with
  | Some image_array =>
      let! slice_image := orraise IndexError (np.take1 image_array slice_idx) in
      let slice_image := np.flipud (np.fliplr slice_image) in
      let! zoom := gets zoom_level_xz in
      display_image slice_image XZ_label "xz" zoom >> ret tt
  | None => ret tt
  end.

Definition update_zy_image (slice_idx : Z) : M unit :=
  let! a := gets image_array in
  match a with
  | Some image_array =>
      let! slice_image := orraise IndexError (np.take2 image_array slice_idx) in
      let slice_image := np.flipud (np.fliplr slice_image) in
      let! zoom := gets zoom_level_yz in
      display_image slice_image ZY_label "zy" zoom >> ret tt
  | None => ret tt
  end.

(** The three [update_*_image] methods, by the label they paint. *)
Definition update_image (v : label_ref) : Z -> M unit :=
  match v with
  | XY_label => update_xy_image
  | XZ_label => update_xz_image
  | ZY_label => update_zy_image
  end.

Definition update_all_images : M unit :=
  let! xy_idx := gets (fun s => value (xy_slider s)) in
  let! xz_idx := gets (fun s => value (xz_slider s)) in
  let! zy_idx := gets (fun s => value (zy_slider s)) in
  update_xy_image xy_idx >>
  update_xz_image xz_idx >>
  update_zy_image zy_idx.

Definition get_slider (view : string) : slider_ref :=
  if String.eqb view "xy" then XY_slider
  else if String.eqb view "xz" then XZ_slider
  else ZY_slider.

(** The playback tick of one view. *)
Definition update_slice (view : string) : M unit :=
  let slider_ := get_slider view in
  let! xy_idx := gets (fun s => value (xy_slider s)) in
  let! xz_idx := gets (fun s => value (xz_slider s)) in
  let! zy_idx := gets (fun s => value (zy_slider s)) in
  update_xy_image xy_idx >>
  update_xz_image xz_idx >>
  update_zy_image zy_idx >>
  let! current_value := gets (fun s => value (slider slider_ s)) in
  let! maximum_ := gets (fun s => maximum (slider slider_ s)) in
  if current_value <? maximum_ - 1
  then modify (on_slider slider_ (setValue (current_value + 1)))
  else modify (on_slider slider_ (setValue 0)).

(** The [valueChanged] callbacks of the brightness and contrast sliders. *)
Definition update_brightness (value : Z) (view : string) : M unit :=
  modify (fun s =>
            set_contrast (<[view := (inject_Z value / 100)%Q]> (contrast s)) s) >>
  update_all_images.

Definition update_contrast (value : Z) (view : string) : M unit :=
  modify (fun s =>
            set_brightness (<[view := inject_Z value]> (brightness s)) s) >>
  update_all_images.

Definition load_image (image_array : np.ndarray3) : M unit :=
  modify (set_image_array (Some image_array)) >>
  let! '(shape0, shape1, shape2) := image_array_shape in
  let max_axial := shape0 - 1 in
  let max_sagittal := shape1 - 1 in
  let max_coronal := shape2 - 1 in
  modify (on_slider XY_slider (setMaximum max_axial)) >>
  modify (on_slider XZ_slider (setMaximum max_sagittal)) >>
  modify (on_slider ZY_slider (setMaximum max_coronal)) >>
  modify (on_slider XY_slider (setValue (max_axial / 2))) >>
  modify (on_slider XZ_slider (setValue (max_sagittal / 2))) >>
  modify (on_slider ZY_slider (setValue (max_coronal / 2))) >>
  modify (set_current_crosshair None) >>
  update_all_images.

(** *** Pointer clicks

    The three handlers share their body up to which label is clicked,
    which two axes the slice spans and which two sliders are moved. *)

(** The part of a handler after [max_* = ...]. [shape_x] and [shape_y] are
    the extents the slice spans horizontally and vertically;
    [slider_x] / [slider_y] the sliders set from [image_x] / [image_y],
    with their [max_*]. [image_x] and [image_y] are the exact quotients
    here; [Double.click_body] computes them as the code does, in doubles. *)
Definition click_body (lbl : label_ref) (pos : Z * Z)
           (shape_x shape_y : Z)
           (slider_y : slider_ref) (max_y : Z)
           (slider_x : slider_ref) (max_x : Z) : M unit :=
  let! the_label := gets (label lbl) in
  let! a := gets image_array in
  if rect_contains the_label pos && bool_decide (a ≠ None) then
    match pixmap the_label with
    | None => ret tt
    | Some current_pixmap =>
        let scaled_pixmap := scaled current_pixmap (size the_label) in
        let scaled_width := wd scaled_pixmap in
        let scaled_height := ht scaled_pixmap in
        let offset_x := (width the_label - scaled_width) / 2 in
        let offset_y := (height the_label - scaled_height) / 2 in
        let x := fst pos - offset_x in
        let y := snd pos - offset_y in
        if (0 <=? x) && (x <? scaled_width) &&
           (0 <=? y) && (y <? scaled_height)
        then
          let image_x :=
            Py.int (inject_Z x / inject_Z scaled_width * inject_Z shape_x) in
          let image_y :=
            Py.int (inject_Z y / inject_Z scaled_height * inject_Z shape_y) in
          modify (on_slider slider_y (setValue (max_y - image_y))) >>
          modify (on_slider slider_x (setValue (max_x - image_x))) >>
          modify (set_current_crosshair (Some (x + offset_x, y + offset_y))) >>
          update_all_images
        else ret tt
    end
  else ret tt.

Definition mouse_press_event_xy (pos : Z * Z) : M unit :=
  let! '(shape0, shape1, shape2) := image_array_shape in
  let max_coronal := shape2 - 1 in
  let max_sagittal := shape1 - 1 in
  click_body XY_label pos shape2 shape1
             XZ_slider max_sagittal ZY_slider max_coronal.

Definition mouse_press_event_zy (pos : Z * Z) : M unit :=
  let! '(shape0, shape1, shape2) := image_array_shape in
  let max_axial := shape0 - 1 in
  let max_sagittal := shape1 - 1 in
  click_body ZY_label pos shape1 shape0
             XY_slider max_axial XZ_slider max_sagittal.

Definition mouse_press_event_xz (pos : Z * Z) : M unit :=
  let! '(shape0, shape1, shape2) := image_array_shape in
  let max_axial := shape0 - 1 in
  let max_coronal := shape2 - 1 in
  click_body XZ_label pos shape2 shape0
             XY_slider max_axial ZY_slider max_coronal.

(** [initUI] installs one handler per label:
    [self.xy_label.mousePressEvent = self.mouse_press_event_xy], ... *)
Definition mousePressEvent (lbl : label_ref) : Z * Z -> M unit :=
  match lbl with
  | XY_label => mouse_press_event_xy
  | XZ_label => mouse_press_event_xz
  | ZY_label => mouse_press_event_zy
  end.

(** *** Geometry of a click, as the handlers compute it *)

(** [(offset_x, offset_y, scaled_width, scaled_height)] of the image a
    label shows, when it shows one. *)
Definition image_bounds (lbl : QLabel) : option (Z * Z * Z * Z) :=
  current_pixmap ← pixmap lbl;
  let scaled_pixmap := scaled current_pixmap (size lbl) in
  Some ((width lbl - wd scaled_pixmap) / 2,
        (height lbl - ht scaled_pixmap) / 2,
        wd scaled_pixmap, ht scaled_pixmap).

(** The click lies inside the centered scaled image. *)
Definition inside_image (lbl : QLabel) (pos : Z * Z) : bool :=
  match image_bounds lbl with
  | Some (offset_x, offset_y, cw, ch) =>
      (offset_x <=? fst pos) && (fst pos <? offset_x + cw) &&
      (offset_y <=? snd pos) && (snd pos <? offset_y + ch)
  | None => false
  end.

(** *** Zoom, crosshair refresh and pointer moves *)

Definition adjust_zoom (zs : ZoomSliders) (view : string) : M unit :=
  if String.eqb view "xy" then
    modify (set_zoom_level_xy (inject_Z (value (xy_zoom_slider zs)) / 100)%Q)
  else if String.eqb view "xz" then
    modify (set_zoom_level_xz (inject_Z (value (xz_zoom_slider zs)) / 100)%Q)
  else if String.eqb view "yz" then
    modify (set_zoom_level_yz (inject_Z (value (zy_zoom_slider zs)) / 100)%Q)
  else ret tt.

(** The 30 ms timer. *)
Definition update_crosshair : M unit :=
  let! c := gets current_crosshair in
  match c with
  | None => ret tt
  | Some _ => update_all_images
  end.

(** The three move handlers differ in the label only. *)
Definition move_body (lbl : label_ref) (pos : Z * Z) : M unit :=
  let! the_label := gets (label lbl) in
  if rect_contains the_label pos then
    modify (set_current_crosshair (Some (fst pos, snd pos))) >>
    update_all_images
  else ret tt.

Definition mouse_move_event_xy (pos : Z * Z) : M unit := move_body XY_label pos.
Definition mouse_move_event_xz (pos : Z * Z) : M unit := move_body XZ_label pos.
Definition mouse_move_event_zy (pos : Z * Z) : M unit := move_body ZY_label pos.

(** [self.xy_label.mouseMoveEvent = self.mouse_move_event_xy], ... *)
Definition mouseMoveEvent (lbl : label_ref) : Z * Z -> M unit :=
  match lbl with
  | XY_label => mouse_move_event_xy
  | XZ_label => mouse_move_event_xz
  | ZY_label => mouse_move_event_zy
  end.

(** *** Play and pause

    [timers] tells for each view whether its [QTimer] is running; the
    method returns the timers as it leaves them. The three branches of the
    source differ in the key only. *)
Definition toggle_branch (key : string) (timers : gmap string bool)
  : M (gmap string bool) :=
  let! d := gets playing_state in
  let! p := getitem d key in
  modify (set_playing_state (<[key := negb p]> d)) >>
  let! d := gets playing_state in
  let! p := getitem d key in
  let! _ := getitem timers key in
  if p then
    modify (set_playing_state (<[key := true]> d)) >>
    ret (<[key := true]> timers)
  else
    modify (set_playing_state (<[key := false]> d)) >>
    ret (<[key := false]> timers).

Definition toggle_play (view : string) (timers : gmap string bool)
  : M (gmap string bool) :=
  if String.eqb view "xy" then toggle_branch "xy" timers
  else if String.eqb view "xz" then toggle_branch "xz" timers
  else if String.eqb view "yz" then toggle_branch "yz" timers
  else ret timers.

(** *** The events the widgets deliver, as [__init__] and [initUI] wire them *)

Inductive event :=
| MousePress (lbl : label_ref) (pos : Z * Z)
| MouseMove (lbl : label_ref) (pos : Z * Z)
| PlaybackTick (view : string)
| BrightnessChanged (value : Z) (view : string)
| ContrastChanged (value : Z) (view : string)
| ZoomChanged (zs : ZoomSliders) (view : string)
| CrosshairTimer
| ImageLoaded (image_array : np.ndarray3).

Definition dispatch (e : event) : M unit :=
  match e with
  | MousePress lbl pos => mousePressEvent lbl pos
  | MouseMove lbl pos => mouseMoveEvent lbl pos
  | PlaybackTick view => update_slice view
  | BrightnessChanged value view => update_brightness value view
  | ContrastChanged value view => update_contrast value view
  | ZoomChanged zs view => adjust_zoom zs view
  | CrosshairTimer => update_crosshair
  | ImageLoaded image_array => load_image image_array
  end.

(** The loader only delivers rectangular volumes. *)
Definition deliverable (e : event) : bool :=
  match e with
  | ImageLoaded image_array => np.rectangular image_array
  | _ => true
  end.

(** Events are handled one after the other; an exception ends the run. *)
Fixpoint run_events (es : list event) : M unit :=
  match es with
  | [] => ret tt
  | e :: es => dispatch e >> run_events es
  end.

End Methods.

(** *** States the methods keep the viewer in *)

(** Everything but what the labels show: the volume, the per-view slice
    index, brightness, contrast, zoom and playing flag, and the crosshair. *)
Definition view_state (s : t) :=
  (image_array s, brightness s, contrast s, current_crosshair s,
   (zoom_level_xy s, zoom_level_xz s, zoom_level_yz s), playing_state s,
   (xy_slider s, xz_slider s, zy_slider s)).

(** A method that only repaints. *)
Definition repaints {A : Type} (m : M A) : Prop :=
  forall s, view_state (snd (m s)) = view_state s.

Definition has_planes {V : Type} (d : gmap string V) : bool :=
  match d !! "xy", d !! "xz", d !! "zy" with
  | Some _, Some _, Some _ => true
  | _, _, _ => false
  end.

(** Both dictionaries know the three planes and the slice sliders start
    at 0, as [__init__] leaves them. *)
Definition initialised (s : t) : bool :=
  has_planes (brightness s) && has_planes (contrast s) &&
  (minimum (xy_slider s) =? 0) && (minimum (xz_slider s) =? 0) &&
  (minimum (zy_slider s) =? 0).

(** The slider indexes its axis of extent [d]. *)
Definition indexes (sl : QSlider) (d : Z) : bool :=
  (minimum sl =? 0) && (maximum sl =? d - 1) &&
  (0 <=? value sl) && (value sl <=? d - 1).

(** A volume is loaded, as [load_image] leaves the viewer. *)
Definition loaded (s : t) : bool :=
  match image_array s with
  | None => false
  | Some a =>
      let '(d0, d1, d2) := np.shape3 a in
      np.rectangular a &&
      has_planes (brightness s) && has_planes (contrast s) &&
      indexes (xy_slider s) d0 && indexes (xz_slider s) d1 &&
      indexes (zy_slider s) d2
  end.

(** *** The arithmetic in doubles

    The pixel arithmetic of [display_image] on a [float64] slice, and the
    click handlers, with every float operation of the source rounded as
    IEEE 754 binary64 rounds it. *)

Module Double.

Definition ndarray2 := list (list f64.t).

(** [np.min] and [np.max]; empty input raises. *)
Definition reduce (f : f64.t -> f64.t -> f64.t) (l : list f64.t)
  : option f64.t :=
  match l with
  | [] => None
  | x :: xs => Some (fold_left f xs x)
  end.

Definition min (a : ndarray2) : option f64.t := reduce f64.minimum (concat a).
Definition max (a : ndarray2) : option f64.t := reduce f64.maximum (concat a).

(** [(slice_image - min_val) / (max_val - min_val) * 255], or zeros. *)
Definition normalize (slice_image : ndarray2) (min_val max_val : f64.t)
  : ndarray2 :=
  if negb (PrimFloat.eqb max_val min_val)
  then map (map (fun v =>
                   PrimFloat.mul
                     (PrimFloat.div (PrimFloat.sub v min_val)
                                    (PrimFloat.sub max_val min_val))
                     (f64.of_Z 255)))
           slice_image
  else map (map (fun _ => f64.of_Z 0)) slice_image.

(** [np.clip(x * contrast + brightness, 0, 255).astype(np.uint8)] *)
Definition adjust (brightness contrast : f64.t) (x : f64.t) : Z :=
  f64.astype_uint8
    (f64.clip (PrimFloat.add (PrimFloat.mul x contrast) brightness)
              (f64.of_Z 0) (f64.of_Z 255)).

(** The 8-bit buffer handed to [QImage]; [None] stands for the [ValueError]
    of [np.min] on an empty slice. *)
Definition display_pixels (slice_image : ndarray2) (brightness contrast : f64.t)
  : option (list (list Z)) :=
  min_val ← min slice_image;
  max_val ← max slice_image;
  Some (map (map (adjust brightness contrast))
            (normalize slice_image min_val max_val)).

(** [int((x / scaled_width) * shape)] *)
Definition image_index (x scaled shape : Z) : outcome Z :=
  f64.int (PrimFloat.mul (PrimFloat.div (f64.of_Z x) (f64.of_Z scaled))
                         (f64.of_Z shape)).

Definition lift {A : Type} (o : outcome A) : M A := fun s => (o, s).

(** The numbers the viewer keeps as [n / d], as doubles: the volume is
    taken to be a [float64] array. *)
Definition of_array (a : np.ndarray2) : ndarray2 := map (map f64.of_Q) a.

Section Methods.

Context {tk : Toolkit}.

(** [display_image], as [ImageViewer.display_image] but for the pixel
    arithmetic. *)
Definition display_image (slice_image : np.ndarray2) (lbl : label_ref)
           (plane : string) (zoom_factor : Q) : M (list (list Z)) :=
  let '(height, width) := np.shape2 slice_image in
  let slice_image := of_array slice_image in
  let! min_val := orraise ValueError (min slice_image) in
  let! max_val := orraise ValueError (max slice_image) in
  let slice_image := normalize slice_image min_val max_val in
  let! brightness := (let! d := gets brightness in getitem d plane) in
  let! contrast := (let! d := gets contrast in getitem d plane) in
  let slice_image :=
    map (map (adjust (f64.of_Q brightness) (f64.of_Q contrast))) slice_image in
  let pixmap := {| wd := width; ht := height |} in
  let scaled_pixmap := scaled pixmap (size_times pixmap zoom_factor) in
  modify (on_label lbl (setPixmap scaled_pixmap)) >>
  ret slice_image.

(** The part of a handler after [max_* = ...], as [ImageViewer.click_body]
    but for [image_x] and [image_y]. *)
Definition click_body (lbl : label_ref) (pos : Z * Z)
           (shape_x shape_y : Z)
           (slider_y : slider_ref) (max_y : Z)
           (slider_x : slider_ref) (max_x : Z) : M unit :=
  let! the_label := gets (label lbl) in
  let! a := gets image_array in
  if rect_contains the_label pos && bool_decide (a ≠ None) then
    match pixmap the_label with
    | None => ret tt
    | Some current_pixmap =>
        let scaled_pixmap := scaled current_pixmap (size the_label) in
        let scaled_width := wd scaled_pixmap in
        let scaled_height := ht scaled_pixmap in
        let offset_x := (width the_label - scaled_width) / 2 in
        let offset_y := (height the_label - scaled_height) / 2 in
        let x := fst pos - offset_x in
        let y := snd pos - offset_y in
        if (0 <=? x) && (x <? scaled_width) &&
           (0 <=? y) && (y <? scaled_height)
        then
          let! image_x := lift (image_index x scaled_width shape_x) in
          let! image_y := lift (image_index y scaled_height shape_y) in
          modify (on_slider slider_y (setValue (max_y - image_y))) >>
          modify (on_slider slider_x (setValue (max_x - image_x))) >>
          modify (set_current_crosshair (Some (x + offset_x, y + offset_y))) >>
          update_all_images
        else ret tt
    end
  else ret tt.

Definition mouse_press_event_xy (pos : Z * Z) : M unit :=
  let! '(shape0, shape1, shape2) := image_array_shape in
  let max_coronal := shape2 - 1 in
  let max_sagittal := shape1 - 1 in
  click_body XY_label pos shape2 shape1
             XZ_slider max_sagittal ZY_slider max_coronal.

Definition mouse_press_event_zy (pos : Z * Z) : M unit :=
  let! '(shape0, shape1, shape2) := image_array_shape in
  let max_axial := shape0 - 1 in
  let max_sagittal := shape1 - 1 in
  click_body ZY_label pos shape1 shape0
             XY_slider max_axial XZ_slider max_sagittal.

Definition mouse_press_event_xz (pos : Z * Z) : M unit :=
  let! '(shape0, shape1, shape2) := image_array_shape in
  let max_axial := shape0 - 1 in
  let max_coronal := shape2 - 1 in
  click_body XZ_label pos shape2 shape0
             XY_slider max_axial ZY_slider max_coronal.

Definition mousePressEvent (lbl : label_ref) : Z * Z -> M unit :=
  match lbl with
  | XY_label => mouse_press_event_xy
  | XZ_label => mouse_press_event_xz
  | ZY_label => mouse_press_event_zy
  end.

End Methods.

End Double.

End ImageViewer.

(** ** VolumeRenderer: default transfer functions *)

Module VolumeRenderer.

Definition rgb : Type := Q * Q * Q.

(** A vtk transfer function is kept as its history: the control points
    handed to it since the last [RemoveAllPoints], in the order of the
    calls. What the object holds after these calls is read off the history
    by [nodes] below. *)
Record t := mk {
  color_transfer_function : list (Q * rgb);
  opacity_transfer_function : list (Q * Q)
}.

Definition RemoveAllPoints {A : Type} (tf : list A) : list A := [].

(** [AddRGBPoint] and [AddPoint] extend the history by one call. *)
Definition AddRGBPoint (x r g b : Q) (tf : list (Q * rgb)) : list (Q * rgb) :=
  tf ++ [(x, (r, g, b))].

Definition AddPoint (x y : Q) (tf : list (Q * Q)) : list (Q * Q) :=
  tf ++ [(x, y)].

Definition initialize_transfer_functions (image_array : np.ndarray3)
           (self : t) : outcome unit * t :=
  let ctf := RemoveAllPoints (color_transfer_function self) in
  let otf := RemoveAllPoints (opacity_transfer_function self) in
  match np.min3 image_array, np.max3 image_array with
  | Some min_val, Some max_val =>
      (* Color Transfer Function *)
      let ctf := AddRGBPoint min_val 0.0 0.0 0.0 ctf in
      let ctf := AddRGBPoint (max_val * 0.25) 0.85 0.55 0.3 ctf in
      let ctf := AddRGBPoint (max_val * 0.5) 0.95 0.85 0.7 ctf in
      let ctf := AddRGBPoint max_val 1.0 1.0 1.0 ctf in
      (* Opacity Transfer Function *)
      let otf := AddPoint min_val 0.0 otf in
      let otf := AddPoint (max_val * 0.25) 0.1 otf in
      let otf := AddPoint (max_val * 0.5) 0.4 otf in
      let otf := AddPoint max_val 1.0 otf in
      (Return tt, mk ctf otf)
  | _, _ => (Raise ValueError, mk ctf otf)
  end.

(** *** What the vtk objects hold

    [vtkColorTransferFunction::AddRGBPoint] and
    [vtkPiecewiseFunction::AddPoint] first remove the node the function has
    at the same [x] ([RemovePoint]), then add the new node and sort the
    nodes by [x]: a function never holds two nodes at one [x], and its
    nodes are in the order of their [x]. *)

Definition remove_point {A : Type} (x : Q) (nodes : list (Q * A))
  : list (Q * A) :=
  List.filter (fun n => negb (Qeq_bool (fst n) x)) nodes.

Fixpoint insert_node {A : Type} (p : Q * A) (nodes : list (Q * A))
  : list (Q * A) :=
  match nodes with
  | [] => [p]
  | n :: rest =>
      if Qle_bool (fst p) (fst n) then p :: nodes
      else n :: insert_node p rest
  end.

Definition add_node {A : Type} (nodes : list (Q * A)) (p : Q * A)
  : list (Q * A) :=
  insert_node p (remove_point (fst p) nodes).

(** The nodes of a function that was empty before the given calls. *)
Definition nodes {A : Type} (calls : list (Q * A)) : list (Q * A) :=
  fold_left add_node calls [].

(** *** [load_image]

    What the method leaves behind besides the transfer functions: the
    volumes the [vtkRenderer] holds, each with its scalar type and data
    extent, and the message boxes shown. *)

Inductive dtype := uint8 | uint16 | float32 | float64 | other_dtype.

Inductive vtk_scalar_type :=
  VTK_UNSIGNED_CHAR | VTK_UNSIGNED_SHORT | VTK_FLOAT | VTK_DOUBLE.

Inductive message := Warning (title : string) | Critical (title : string).

Record volume := mkVolume {
  scalar_type : vtk_scalar_type;
  data_extent : Z * Z * Z
}.

Record widget := mkWidget {
  functions : t;
  view_props : list volume;
  messages : list message
}.

Definition vtk_data_type (d : dtype) : option vtk_scalar_type :=
  match d with
  | uint8 => Some VTK_UNSIGNED_CHAR
  | uint16 => Some VTK_UNSIGNED_SHORT
  | float32 => Some VTK_FLOAT
  | float64 => Some VTK_DOUBLE
  | other_dtype => None
  end.

Definition load_image (image_array : option (dtype * np.ndarray3))
           (self : widget) : outcome unit * widget :=
  match image_array with
  | None =>
      (Return tt,
       mkWidget (functions self) (view_props self)
                (messages self ++ [Warning "No Image Data"]))
  | Some (d, a) =>
      (* self.renderer.RemoveAllViewProps() *)
      match vtk_data_type d with
      | None =>
          (Return tt,
           mkWidget (functions self) []
                    (messages self ++ [Critical "Unsupported Data Type"]))
      | Some ty =>
          let '(shape0, shape1, shape2) := np.shape3 a in
          let extent := (shape2 - 1, shape1 - 1, shape0 - 1) in
          match initialize_transfer_functions a (functions self) with
          | (Return _, tfs) =>
              (Return tt, mkWidget tfs [mkVolume ty extent] (messages self))
          | (Raise e, tfs) => (Raise e, mkWidget tfs [] (messages self))
          end
      end
  end.

End VolumeRenderer.

(** ** The specification's own formulas, to compare the code with *)

Module Spec.

(** 4.5: [slice_index = (slice_index + 1) mod extent]. *)
Definition tick (slice_index extent : Z) : Z := (slice_index + 1) mod extent.

(** 4.2: [clamp(x, lo, hi)] and the displayed value of a raw pixel [v]. *)
Definition clamp (x lo hi : Q) : Q :=
  if Qlt_le_dec x lo then lo else if Qlt_le_dec hi x then hi else x.


(** 4.3: [floor((p - offset) / C * S)]. *)
Definition mapped_index (p offset c s : Z) : Z :=
  Qfloor (inject_Z (p - offset) / inject_Z c * inject_Z s).

(** The volume axis a view's slider runs along, and the axes its slice
    spans on screen. *)
Inductive axis := Axis0 | Axis1 | Axis2.

Definition extent (a : np.ndarray3) (ax : axis) : Z :=
  let '(d0, d1, d2) := np.shape3 a in
  match ax with Axis0 => d0 | Axis1 => d1 | Axis2 => d2 end.

Definition slider_of (ax : axis) : ImageViewer.slider_ref :=
  match ax with
  | Axis0 => ImageViewer.XY_slider
  | Axis1 => ImageViewer.XZ_slider
  | Axis2 => ImageViewer.ZY_slider
  end.

Definition normal (v : ImageViewer.label_ref) : axis :=
  match v with
  | ImageViewer.XY_label => Axis0
  | ImageViewer.XZ_label => Axis1
  | ImageViewer.ZY_label => Axis2
  end.

Definition horizontal (v : ImageViewer.label_ref) : axis :=
  match v with
  | ImageViewer.XY_label => Axis2
  | ImageViewer.XZ_label => Axis2
  | ImageViewer.ZY_label => Axis1
  end.

Definition vertical (v : ImageViewer.label_ref) : axis :=
  match v with
  | ImageViewer.XY_label => Axis1
  | ImageViewer.XZ_label => Axis0
  | ImageViewer.ZY_label => Axis0
  end.

(** The slice a view shows at index [i]. *)
Definition slice_of (v : ImageViewer.label_ref) (a : np.ndarray3) (i : Z)
  : option np.ndarray2 :=
  match v with
  | ImageViewer.XY_label => np.take0 a i
  | ImageViewer.XZ_label => np.take1 a i
  | ImageViewer.ZY_label => np.take2 a i
  end.

(** The zoom level of a view. *)
Definition zoom_of (v : ImageViewer.label_ref) (s : ImageViewer.t) : Q :=
  match v with
  | ImageViewer.XY_label => ImageViewer.zoom_level_xy s
  | ImageViewer.XZ_label => ImageViewer.zoom_level_xz s
  | ImageViewer.ZY_label => ImageViewer.zoom_level_yz s
  end.

(** The voxel at indices [(i0, i1, i2)], and the indices of the voxel that
    lies at [n] along the normal axis of a view, at [v] along its vertical
    and at [h] along its horizontal axis. *)
Definition voxel (a : np.ndarray3) (c : Z * Z * Z) : Q :=
  let '(i0, i1, i2) := c in
  nth (Z.to_nat i2) (nth (Z.to_nat i1) (nth (Z.to_nat i0) a []) []) 0%Q.

Definition at_axes (l : ImageViewer.label_ref) (n v h : Z) : Z * Z * Z :=
  match l with
  | ImageViewer.XY_label => (n, v, h)
  | ImageViewer.XZ_label => (v, n, h)
  | ImageViewer.ZY_label => (v, h, n)
  end.

(** The pixel of a 2D array in row [i], column [j]. *)
Definition pixel (sl : np.ndarray2) (i j : Z) : Q :=
  nth (Z.to_nat j) (nth (Z.to_nat i) sl []) 0%Q.

(** 4.6: the four scalar positions, and "strictly increasing". *)
Definition control_positions (min_val max_val : Q) : list Q :=
  [min_val; 0.25 * max_val; 0.5 * max_val; max_val]%Q.

Definition opacities : list Q := [0; 0.1; 0.4; 1.0]%Q.

Definition colors : list (Q * Q * Q) :=
  [(0, 0, 0); (0.85, 0.55, 0.30); (0.95, 0.85, 0.70); (1, 1, 1)]%Q.

Definition same_color (x y : Q * Q * Q) : Prop :=
  (fst (fst x) == fst (fst y) /\ snd (fst x) == snd (fst y) /\ snd x == snd y)%Q.


End Spec.

(** ** Inputs the examples run on *)

Module Examples.

Definition qz (rows : list (list (list Z))) : np.ndarray3 :=
  map (map (map inject_Z)) rows.

(** A 3 x 2 x 2 volume and a 4 x 2 x 2 volume. *)
Definition vol322 : np.ndarray3 :=
  qz [ [[0; 10]; [20; 30]]; [[40; 50]; [60; 70]]; [[80; 90]; [100; 110]] ].

Definition vol422 : np.ndarray3 :=
  qz [ [[0; 10]; [20; 30]]; [[40; 50]; [60; 70]];
       [[80; 90]; [100; 110]]; [[120; 130]; [140; 150]] ].

(** A volume with minimum 0 and maximum 1000, and a flat one. *)
Definition vol_0_1000 : np.ndarray3 := qz [ [[0; 400]; [1000; 7]] ].
Definition vol_flat : np.ndarray3 := qz [ [[5; 5]; [5; 5]] ].

(** A volume whose intensities lie between 100 and 200. *)
Definition vol_100_200 : np.ndarray3 := qz [ [[100; 150]; [200; 120]] ].

(** A 3 x 50 x 50 volume: every row counts from 0 to 49. *)
Definition vol_3_50_50 : np.ndarray3 :=
  qz (repeat (repeat (map Z.of_nat (seq 0 50)) 50) 3).

(** The viewer right after start-up, with 400 x 300 labels. *)
Definition fresh : ImageViewer.t :=
  ImageViewer.init (mkQSize 400 300) (mkQSize 400 300) (mkQSize 400 300).

(** The state a method call ends in. *)
Definition after {A : Type} (m : ImageViewer.M A) (s : ImageViewer.t)
  : ImageViewer.t := snd (m s).

(** The contrast slider of the axial view moved to 50, and then also its
    brightness slider moved to 200 (see [update_contrast] and
    [update_brightness] for which dictionary each one writes). *)
Definition bright50 : ImageViewer.t :=
  after (ImageViewer.update_contrast (tk := qt5) 50 "xy") fresh.


(** The same with square 300 x 300 labels, and with a volume loaded. *)
Definition fresh_square : ImageViewer.t :=
  ImageViewer.init (mkQSize 300 300) (mkQSize 300 300) (mkQSize 300 300).

Definition viewing : ImageViewer.t :=
  after (ImageViewer.load_image (tk := qt5) vol322) fresh.

Definition viewing_square : ImageViewer.t :=
  after (ImageViewer.load_image (tk := qt5) vol322) fresh_square.


Definition viewing_50 : ImageViewer.t :=
  after (ImageViewer.load_image (tk := qt5) vol_3_50_50) fresh.

(** The timers of a viewer as started, and the zoom sliders at 150. *)
Definition timers_stopped : gmap string bool :=
  {[ "xy" := false; "xz" := false; "yz" := false ]}.

Definition zoom150 : ImageViewer.ZoomSliders :=
  ImageViewer.mkZoomSliders
    (setValue 150 ImageViewer.new_zoom_slider)
    ImageViewer.new_zoom_slider ImageViewer.new_zoom_slider.

End Examples.

Import ImageViewer.

(** * Properties *)

Create HintDb repaint.

(** Unfold the plumbing of a method body. *)
Ltac run :=
  unfold bind, gets, modify, ret, raise, orraise, getitem; simpl.

(** ** Arithmetic of the pixel pipeline *)

Section PixelArithmetic.

Local Open Scope Q_scope.

Lemma clamp_bounds x lo hi :
  lo <= hi -> lo <= Spec.clamp x lo hi /\ Spec.clamp x lo hi <= hi.
Proof.
  intros Hlh. unfold Spec.clamp.
  destruct (Qlt_le_dec x lo); [split; lra|].
  destruct (Qlt_le_dec hi x); split; lra.
Qed.

Lemma clamp_inside x lo hi :
  lo <= x -> x <= hi -> Spec.clamp x lo hi == x.
Proof.
  intros Hl Hh. unfold Spec.clamp.
  destruct (Qlt_le_dec x lo); [lra|].
  destruct (Qlt_le_dec hi x); lra.
Qed.

Lemma clamp_above x lo hi : lo <= hi -> hi <= x -> Spec.clamp x lo hi == hi.
Proof.
  intros Hlh Hh. unfold Spec.clamp.
  destruct (Qlt_le_dec x lo); [lra|].
  destruct (Qlt_le_dec hi x); lra.
Qed.

Lemma clamp_below x lo hi : lo <= hi -> x <= lo -> Spec.clamp x lo hi == lo.
Proof.
  intros Hlh Hl. unfold Spec.clamp.
  destruct (Qlt_le_dec x lo); [lra|].
  destruct (Qlt_le_dec hi x); lra.
Qed.

Lemma clamp_compat x y lo hi :
  x == y -> Spec.clamp x lo hi == Spec.clamp y lo hi.
Proof.
  intros Hxy. unfold Spec.clamp.
  destruct (Qlt_le_dec x lo), (Qlt_le_dec y lo); try lra.
  destruct (Qlt_le_dec hi x), (Qlt_le_dec hi y); lra.
Qed.

(** numpy's clip is the specification's clamp. *)
Lemma clip_clamp x lo hi : lo <= hi -> np.clip x lo hi == Spec.clamp x lo hi.
Proof.
  intros Hlh. unfold np.clip, Spec.clamp.
  destruct (Q.max_spec x lo) as [[H1 E1]|[H1 E1]];
    destruct (Q.min_spec (Qmax x lo) hi) as [[H2 E2]|[H2 E2]];
    rewrite E2; rewrite E1 in *;
    destruct (Qlt_le_dec x lo); try lra;
    destruct (Qlt_le_dec hi x); lra.
Qed.

(** After clipping to [0, 255] the cast to uint8 is the floor. *)
Lemma astype_uint8_clip x :
  np.astype_uint8 (np.clip x 0 255) = Qfloor (Spec.clamp x 0 255).
Proof.
  assert (Hb : 0 <= 255) by lra.
  pose proof (clip_clamp x 0 255 Hb) as Hc.
  pose proof (clamp_bounds x 0 255 Hb) as [Hlo Hhi].
  rewrite <- Hc in Hlo, Hhi.
  unfold np.astype_uint8, Py.int.
  destruct (Qle_bool 0 (np.clip x 0 255)) eqn:E.
  - rewrite (Qfloor_comp _ _ Hc).
    rewrite Hc in Hlo, Hhi.
    apply Qfloor_resp_le in Hlo, Hhi.
    change (Qfloor 0) with 0%Z in Hlo. change (Qfloor 255) with 255%Z in Hhi.
    apply Z.mod_small. lia.
  - apply not_true_iff_false in E. rewrite Qle_bool_iff in E. contradiction.
Qed.

Lemma adjust_clamp b c x :
  adjust b c x = Qfloor (Spec.clamp (x * c + b) 0 255).
Proof. unfold adjust. apply astype_uint8_clip. Qed.

Lemma Qfloor_clamp_compat x y :
  x == y -> Qfloor (Spec.clamp x 0 255) = Qfloor (Spec.clamp y 0 255).
Proof. intros H. apply Qfloor_comp, clamp_compat, H. Qed.

End PixelArithmetic.

(** ** The displayed buffer *)

Lemma display_pixels_normalized slice_image b c min_val max_val :
  np.min slice_image = Some min_val ->
  np.max slice_image = Some max_val ->
  display_pixels slice_image b c =
    Some (map (map (adjust b c)) (normalize slice_image min_val max_val)).
Proof. intros Hmin Hmax. unfold display_pixels. rewrite Hmin, Hmax. reflexivity. Qed.

Lemma normalize_flat slice_image min_val max_val :
  (max_val == min_val)%Q ->
  normalize slice_image min_val max_val = np.zeros_like slice_image.
Proof.
  intros He. unfold normalize.
  apply Qeq_bool_iff in He. rewrite He. reflexivity.
Qed.

Lemma display_pixels_uniform slice_image b c min_val max_val :
  np.min slice_image = Some min_val ->
  np.max slice_image = Some max_val ->
  (max_val == min_val)%Q ->
  display_pixels slice_image b c =
    Some (map (map (fun _ => Qfloor (Spec.clamp b 0 255))) slice_image).
Proof.
  intros Hmin Hmax Heq.
  rewrite (display_pixels_normalized _ _ _ _ _ Hmin Hmax).
  rewrite normalize_flat by assumption.
  unfold np.zeros_like. f_equal. rewrite map_map. apply map_ext. intros row.
  rewrite map_map. apply map_ext. intros _.
  rewrite adjust_clamp. apply Qfloor_clamp_compat. ring.
Qed.

Lemma Qfloor_zero_iff (x : Q) : Qfloor x = 0 <-> (0 <= x /\ x < 1)%Q.
Proof.
  split.
  - intros H. pose proof (Qfloor_le x) as Hl. pose proof (Qlt_floor x) as Hu.
    rewrite H in Hl, Hu. split; [exact Hl | exact Hu].
  - intros [Hl Hu].
    apply Qfloor_resp_le in Hl. change (Qfloor 0) with 0 in Hl.
    pose proof (Qfloor_le x) as Hf.
    assert (Hlt : (inject_Z (Qfloor x) < inject_Z 1)%Q).
    { eapply Qle_lt_trans; [exact Hf | exact Hu]. }
    rewrite <- Zlt_Qlt in Hlt. lia.
Qed.

Lemma Qfloor_clamp_zero_iff (b : Q) :
  Qfloor (Spec.clamp b 0 255) = 0 <-> (b < 1)%Q.
Proof.
  rewrite Qfloor_zero_iff.
  assert (Hb : (0 <= 255)%Q) by lra.
  destruct (Qlt_le_dec b 0) as [Hneg|Hpos].
  - rewrite (clamp_below b 0 255) by lra. split; intros; [lra | split; lra].
  - destruct (Qlt_le_dec 255 b) as [Hbig|Hsmall].
    + rewrite (clamp_above b 0 255) by lra. split; intros; lra.
    + rewrite (clamp_inside b 0 255) by lra. split; intros; lra.
Qed.

(** [display_image] returns the buffer of [display_pixels], computed with the
    brightness and contrast of its plane. *)
Lemma display_image_pixels {tk : Toolkit} slice_image l plane zoom (s : t) b c frame :
  brightness s !! plane = Some b ->
  contrast s !! plane = Some c ->
  display_pixels slice_image b c = Some frame ->
  fst (display_image slice_image l plane zoom s) = Return frame.
Proof.
  intros Hb Hc Hp. unfold display_pixels in Hp. unfold display_image.
  destruct (np.shape2 slice_image) as [h w].
  destruct (np.min slice_image) as [mn|]; [|discriminate].
  destruct (np.max slice_image) as [mx|]; [|discriminate].
  simpl in Hp. injection Hp as <-.
  run. rewrite Hb. simpl. rewrite Hc. reflexivity.
Qed.

(** *** The pixel arithmetic in doubles *)

Section DoubleArithmetic.






End DoubleArithmetic.






(** C4 (as amended). A flat slice is displayed as a uniform image: every
    pixel is the floor of [clamp(b, 0, 255)], whatever the contrast, and that
    value is 0 exactly when the brightness is below 1. *)
Theorem display_image_flat {tk : Toolkit} (s : t) (l : label_ref)
        (plane : string) (zoom : Q) (slice_image : np.ndarray2)
        (b c min_val max_val : Q) :
  brightness s !! plane = Some b ->
  contrast s !! plane = Some c ->
  np.min slice_image = Some min_val ->
  np.max slice_image = Some max_val ->
  (max_val == min_val)%Q ->
  fst (display_image slice_image l plane zoom s) =
    Return (map (map (fun _ => Qfloor (Spec.clamp b 0 255))) slice_image)
  /\ (Qfloor (Spec.clamp b 0 255) = 0 <-> (b < 1)%Q).
Proof.
  intros Hb Hc Hmin Hmax Heq. split.
  - apply (display_image_pixels _ _ _ _ _ b c); try assumption.
    eapply display_pixels_uniform; eassumption.
  - apply Qfloor_clamp_zero_iff.
Qed.

Lemma display_image_flat_witness :
  fst (display_image (tk := qt5) [[5; 5]; [5; 5]]%Q XY_label "xy" 0.4
                     Examples.fresh)
  = Return [[0; 0]; [0; 0]].
Proof.
  destruct (display_image_flat (tk := qt5) Examples.fresh XY_label "xy" 0.4
              [[5; 5]; [5; 5]]%Q 0 1 5 5) as [H _].
  - vm_compute. reflexivity.
  - vm_compute. reflexivity.
  - reflexivity.
  - reflexivity.
  - reflexivity.
  - rewrite H. vm_compute. reflexivity.
Defined.

(** C4, as the specification words it, fails: with the brightness of the
    plane at 50 a flat slice is displayed as 50 everywhere, not as zeros. *)
Lemma display_flat_counterexample :
  np.min [[5; 5]; [5; 5]]%Q = np.max [[5; 5]; [5; 5]]%Q /\
  brightness Examples.bright50 !! "xy" = Some 50%Q /\
  fst (display_image (tk := qt5) [[5; 5]; [5; 5]]%Q XY_label "xy" 0.4
                     Examples.bright50)
  = Return [[50; 50]; [50; 50]] /\
  fst (display_image (tk := qt5) [[5; 5]; [5; 5]]%Q XY_label "xy" 0.4
                     Examples.bright50)
  <> Return [[0; 0]; [0; 0]].
Proof.
  split; [reflexivity|]. split; [vm_compute; reflexivity|].
  split; [vm_compute; reflexivity|]. vm_compute. discriminate.
Qed.

(** ** Transfer functions *)

Section Reduce.

Local Open Scope Q_scope.

Lemma fold_Qmin_le (xs : list Q) (x : Q) :
  fold_left Qmin xs x <= x /\ Forall (fun y => fold_left Qmin xs x <= y) xs.
Proof.
  revert x. induction xs as [|y ys IH]; intros x; simpl.
  - split; [lra | constructor].
  - destruct (IH (Qmin x y)) as [H1 H2].
    pose proof (Q.le_min_l x y). pose proof (Q.le_min_r x y).
    split; [lra|]. constructor; [lra | exact H2].
Qed.

Lemma fold_Qmax_ge (xs : list Q) (x : Q) :
  x <= fold_left Qmax xs x /\ Forall (fun y => y <= fold_left Qmax xs x) xs.
Proof.
  revert x. induction xs as [|y ys IH]; intros x; simpl.
  - split; [lra | constructor].
  - destruct (IH (Qmax x y)) as [H1 H2].
    pose proof (Q.le_max_l x y). pose proof (Q.le_max_r x y).
    split; [lra|]. constructor; [lra | exact H2].
Qed.

(** [np.min] is a lower bound and [np.max] an upper bound of the entries. *)
Lemma reduce_Qmin_le (l : list Q) (m : Q) :
  np.reduce Qmin l = Some m -> Forall (fun y => m <= y) l.
Proof.
  destruct l as [|x xs]; simpl; [discriminate|].
  intros [= <-]. destruct (fold_Qmin_le xs x). constructor; assumption.
Qed.

Lemma reduce_Qmax_ge (l : list Q) (m : Q) :
  np.reduce Qmax l = Some m -> Forall (fun y => y <= m) l.
Proof.
  destruct l as [|x xs]; simpl; [discriminate|].
  intros [= <-]. destruct (fold_Qmax_ge xs x). constructor; assumption.
Qed.

Lemma reduce_is_Some (f : Q -> Q -> Q) (l : list Q) :
  l <> [] -> is_Some (np.reduce f l).
Proof. destruct l; [congruence | eexists; reflexivity]. Qed.

End Reduce.

Lemma initialize_transfer_functions_run image_array self min_val max_val :
  np.min3 image_array = Some min_val ->
  np.max3 image_array = Some max_val ->
  VolumeRenderer.initialize_transfer_functions image_array self =
    (Return tt,
     VolumeRenderer.mk
       [(min_val, (0.0, 0.0, 0.0)); (max_val * 0.25, (0.85, 0.55, 0.3));
        (max_val * 0.5, (0.95, 0.85, 0.7)); (max_val, (1.0, 1.0, 1.0))]%Q
       [(min_val, 0.0); (max_val * 0.25, 0.1);
        (max_val * 0.5, 0.4); (max_val, 1.0)]%Q).
Proof.
  intros Hmin Hmax. unfold VolumeRenderer.initialize_transfer_functions.
  rewrite Hmin, Hmax. reflexivity.
Qed.

(** C7. The builder hands each transfer function exactly four control
    points, at [min_val], [0.25 * max_val], [0.5 * max_val] and [max_val], in
    that order, with opacities 0, 0.1, 0.4, 1 and the colors of the ramp; for
    a volume with minimum 0 and maximum 1000 the positions are 0, 250, 500,
    1000. *)
Theorem transfer_function_control_points
        (image_array : np.ndarray3) (self : VolumeRenderer.t) (min_val max_val : Q) :
  np.min3 image_array = Some min_val ->
  np.max3 image_array = Some max_val ->
  exists self',
    VolumeRenderer.initialize_transfer_functions image_array self = (Return tt, self')
    /\ length (VolumeRenderer.color_transfer_function self') = 4%nat
    /\ length (VolumeRenderer.opacity_transfer_function self') = 4%nat
    /\ Forall2 Qeq (map fst (VolumeRenderer.color_transfer_function self'))
                   (Spec.control_positions min_val max_val)
    /\ Forall2 Qeq (map fst (VolumeRenderer.opacity_transfer_function self'))
                   (Spec.control_positions min_val max_val)
    /\ Forall2 Spec.same_color
                (map snd (VolumeRenderer.color_transfer_function self')) Spec.colors
    /\ Forall2 Qeq (map snd (VolumeRenderer.opacity_transfer_function self'))
                   Spec.opacities
    /\ ((min_val == 0)%Q -> (max_val == 1000)%Q ->
        Forall2 Qeq (map fst (VolumeRenderer.opacity_transfer_function self'))
                    [0; 250; 500; 1000]%Q).
Proof.
  intros Hmin Hmax. eexists. split.
  - apply initialize_transfer_functions_run; eassumption.
  - simpl. unfold Spec.control_positions, Spec.colors, Spec.opacities.
    repeat split.
    + repeat constructor; ring.
    + repeat constructor; ring.
    + repeat constructor; reflexivity.
    + repeat constructor; reflexivity.
    + intros H0 H1000. repeat constructor; rewrite ?H0, ?H1000; reflexivity.
Qed.

Lemma transfer_function_control_points_witness :
  exists self',
    VolumeRenderer.initialize_transfer_functions
      Examples.vol_0_1000 (VolumeRenderer.mk [] []) = (Return tt, self')
    /\ Forall2 Qeq (map fst (VolumeRenderer.opacity_transfer_function self'))
                   [0; 250; 500; 1000]%Q.
Proof.
  destruct (transfer_function_control_points
              Examples.vol_0_1000 (VolumeRenderer.mk [] []) 0 1000)
    as (self' & Hrun & _ & _ & _ & _ & _ & _ & Hpos).
  - reflexivity.
  - reflexivity.
  - exists self'. split; [exact Hrun|]. apply Hpos; reflexivity.
Defined.

(** *** The nodes the vtk functions hold *)

Section Nodes.

Context {A : Type}.

Local Open Scope Q_scope.

Implicit Types (p n : Q * A) (l : list (Q * A)).
















End Nodes.


(** For intensities between 100 and 200 the builder's four calls are at
    100, 50, 100 and 200; the functions then hold three nodes, at 50, 100
    and 200, and the node at 100 is the one of the third call. *)
Lemma transfer_nodes_100_200 :
  let self' :=
    snd (VolumeRenderer.initialize_transfer_functions
           Examples.vol_100_200 (VolumeRenderer.mk [] [])) in
  Forall2 Qeq
    (map fst (VolumeRenderer.nodes (VolumeRenderer.opacity_transfer_function self')))
    [50; 100; 200]%Q
  /\ Forall2 Qeq
       (map snd (VolumeRenderer.nodes (VolumeRenderer.opacity_transfer_function self')))
       [0.1; 0.4; 1.0]%Q
  /\ Forall2 Qeq
       (map fst (VolumeRenderer.nodes (VolumeRenderer.color_transfer_function self')))
       [50; 100; 200]%Q.
Proof.
  vm_compute. repeat split; repeat constructor; reflexivity || discriminate.
Qed.

(** ** Slices of a rectangular volume *)

Section Slices.

Lemma index_in_range {A : Type} (l : list A) (i : Z) :
  0 <= i < Z.of_nat (length l) ->
  exists x, Py.index l i = Some x /\ x ∈ l.
Proof.
  intros Hi. unfold Py.index.
  replace ((0 <=? i) && (i <? Z.of_nat (length l))) with true
    by (symmetry; apply andb_true_intro; split; [apply Z.leb_le | apply Z.ltb_lt]; lia).
  destruct (lookup_lt_is_Some_2 l (Z.to_nat i)) as [x Hx]; [lia|].
  exists x. split; [exact Hx|]. eapply list_elem_of_lookup_2, Hx.
Qed.

Lemma mapM_Forall {A B : Type} (f : A -> option B) (P : B -> Prop) (l : list A) :
  Forall (fun x => exists y, f x = Some y /\ P y) l ->
  exists k, mapM f l = Some k /\ length k = length l /\ Forall P k.
Proof.
  induction 1 as [|x l (y & Hy & HP) _ (k & Hk & Hlen & HPk)].
  - exists []. repeat split. constructor.
  - exists (y :: k). simpl. rewrite Hy. simpl. rewrite Hk. simpl.
    repeat split; [congruence | constructor; assumption].
Qed.

Lemma rectangular_spec (a : np.ndarray3) :
  np.rectangular a = true ->
  1 <= Spec.extent a Spec.Axis0 /\
  1 <= Spec.extent a Spec.Axis1 /\
  1 <= Spec.extent a Spec.Axis2 /\
  Z.of_nat (length a) = Spec.extent a Spec.Axis0 /\
  Forall (fun plane =>
            np.is_grid plane (Spec.extent a Spec.Axis1) (Spec.extent a Spec.Axis2)) a.
Proof.
  unfold np.rectangular, Spec.extent, np.shape3. intros H.
  repeat (apply andb_prop in H; destruct H as [H ?]).
  repeat split; try (apply Z.leb_le; assumption).
  apply Forall_forall. intros plane Hin.
  match goal with Hall : forallb _ a = true |- _ =>
    rewrite forallb_forall in Hall;
    specialize (Hall plane (proj1 (list_elem_of_In _ _) Hin));
    apply andb_prop in Hall; destruct Hall as [Hlen Hrows] end.
  split; [apply Z.eqb_eq, Hlen|].
  apply Forall_forall. intros row Hrow.
  rewrite forallb_forall in Hrows.
  apply Z.eqb_eq, Hrows, list_elem_of_In, Hrow.
Qed.

(** The slice a view shows has the extents of the two axes it spans. *)
Lemma slice_of_grid (v : label_ref) (a : np.ndarray3) (i : Z) :
  np.rectangular a = true ->
  0 <= i < Spec.extent a (Spec.normal v) ->
  exists sl, Spec.slice_of v a i = Some sl /\
             np.is_grid sl (Spec.extent a (Spec.vertical v))
                           (Spec.extent a (Spec.horizontal v)).
Proof.
  intros Hrect Hi.
  destruct (rectangular_spec a Hrect) as (H0 & H1 & H2 & Hlen & Hplanes).
  destruct v; cbn [Spec.slice_of Spec.normal Spec.vertical Spec.horizontal] in *.
  - (* a[i, :, :] *)
    destruct (index_in_range a i) as (sl & Hsl & Hin); [lia|].
    exists sl. split; [exact Hsl|].
    rewrite Forall_forall in Hplanes. apply Hplanes, Hin.
  - (* a[:, i, :] *)
    destruct (mapM_Forall (fun plane => Py.index plane i)
                (fun row => Z.of_nat (length row) = Spec.extent a Spec.Axis2) a)
      as (sl & Hsl & Hl & Hrows).
    + eapply Forall_impl; [exact Hplanes|]. intros plane [Hpl Hpr].
      destruct (index_in_range plane i) as (row & Hrow & Hin); [lia|].
      exists row. split; [exact Hrow|].
      rewrite Forall_forall in Hpr. apply Hpr, Hin.
    + exists sl. split; [exact Hsl|]. split; [lia | exact Hrows].
  - (* a[:, :, i] *)
    destruct (mapM_Forall (fun plane => mapM (fun row => Py.index row i) plane)
                (fun row => Z.of_nat (length row) = Spec.extent a Spec.Axis1) a)
      as (sl & Hsl & Hl & Hrows).
    + eapply Forall_impl; [exact Hplanes|]. intros plane [Hpl Hpr].
      destruct (mapM_Forall (fun row : list Q => Py.index row i) (fun _ => True) plane)
        as (r & Hr & Hrl & _).
      * eapply Forall_impl; [exact Hpr|]. intros row Hrow. cbv beta in Hrow.
        destruct (index_in_range row i) as (x & Hx & _); [lia|].
        exists x. split; [exact Hx | exact I].
      * exists r. split; [exact Hr | lia].
    + exists sl. split; [exact Hsl|]. split; [lia | exact Hrows].
Qed.

(** The 180 degree rotation keeps the shape. *)
Lemma flip_grid (sl : np.ndarray2) (h w : Z) :
  np.is_grid sl h w -> np.is_grid (np.flipud (np.fliplr sl)) h w.
Proof.
  intros [Hh Hw]. unfold np.flipud, np.fliplr. split.
  - rewrite length_rev, length_map. exact Hh.
  - apply Forall_rev, Forall_map.
    eapply Forall_impl; [exact Hw|]. intros row Hrow. simpl.
    rewrite length_rev. exact Hrow.
Qed.

Lemma grid_shape2 (sl : np.ndarray2) (h w : Z) :
  np.is_grid sl h w -> 1 <= h -> np.shape2 sl = (h, w).
Proof.
  intros [Hh Hw] H1. unfold np.shape2.
  destruct sl as [|row sl]; simpl in *; [lia|].
  inversion Hw; subst. reflexivity.
Qed.

Lemma grid_min_max (sl : np.ndarray2) (h w : Z) :
  np.is_grid sl h w -> 1 <= h -> 1 <= w ->
  is_Some (np.min sl) /\ is_Some (np.max sl).
Proof.
  intros [Hh Hw] H1 H2.
  assert (Hne : concat sl <> []).
  { destruct sl as [|row sl]; simpl in *; [lia|].
    inversion Hw; subst. destruct row; simpl in *; [lia | discriminate]. }
  split; apply reduce_is_Some, Hne.
Qed.

(** Rotating twice gives the slice back. *)
Lemma flip_involutive (sl : np.ndarray2) :
  np.flipud (np.fliplr (np.flipud (np.fliplr sl))) = sl.
Proof.
  unfold np.flipud, np.fliplr.
  rewrite map_rev, rev_involutive, map_map.
  rewrite <- (map_id sl) at 2. apply map_ext. intros row. apply rev_involutive.
Qed.

End Slices.

(** ** Running the methods *)

Section Runs.

Context {tk : Toolkit}.

Lemma bind_run {A B : Type} (m : M A) (k : A -> M B) (s s' : t) (a : A) :
  m s = (Return a, s') -> bind m k s = k a s'.
Proof. intros H. unfold bind. rewrite H. reflexivity. Qed.

(** *** Repainting leaves the view state alone, whatever the outcome *)

Lemma repaints_ret {A : Type} (a : A) : repaints (ret a).
Proof. intros s. reflexivity. Qed.

Lemma repaints_raise {A : Type} (e : exn) : repaints (@raise A e).
Proof. intros s. reflexivity. Qed.

Lemma repaints_gets {A : Type} (f : t -> A) : repaints (gets f).
Proof. intros s. reflexivity. Qed.

Lemma repaints_orraise {A : Type} (e : exn) (o : option A) :
  repaints (orraise e o).
Proof. destruct o; intros s; reflexivity. Qed.

Lemma repaints_on_label (l : label_ref) (f : QLabel -> QLabel) :
  repaints (modify (on_label l f)).
Proof. intros s. reflexivity. Qed.

Lemma repaints_bind {A B : Type} (m : M A) (k : A -> M B) :
  repaints m -> (forall a, repaints (k a)) -> repaints (bind m k).
Proof.
  intros Hm Hk s. unfold bind.
  specialize (Hm s). destruct (m s) as [[a|e] s']; simpl in *.
  - rewrite Hk. exact Hm.
  - exact Hm.
Qed.

#[local] Hint Resolve repaints_ret repaints_raise repaints_gets repaints_orraise
     repaints_on_label repaints_bind : repaint.

Lemma repaints_display_image sl l plane zoom :
  repaints (display_image sl l plane zoom).
Proof.
  unfold display_image, getitem. destruct (np.shape2 sl) as [h w].
  auto 12 with repaint.
Qed.

#[local] Hint Resolve repaints_display_image : repaint.

Lemma repaints_update_xy_image i : repaints (update_xy_image i).
Proof.
  unfold update_xy_image. apply repaints_bind; [auto with repaint|].
  intros [a|]; auto 8 with repaint.
Qed.

Lemma repaints_update_xz_image i : repaints (update_xz_image i).
Proof.
  unfold update_xz_image. apply repaints_bind; [auto with repaint|].
  intros [a|]; auto 8 with repaint.
Qed.

Lemma repaints_update_zy_image i : repaints (update_zy_image i).
Proof.
  unfold update_zy_image. apply repaints_bind; [auto with repaint|].
  intros [a|]; auto 8 with repaint.
Qed.

#[local] Hint Resolve repaints_update_xy_image repaints_update_xz_image
     repaints_update_zy_image : repaint.

Lemma repaints_update_all_images : repaints update_all_images.
Proof. unfold update_all_images. auto 12 with repaint. Qed.

(** *** On a loaded viewer the repaint goes through *)

Lemma has_planes_spec {V : Type} (d : gmap string V) :
  has_planes d = true ->
  is_Some (d !! "xy") /\ is_Some (d !! "xz") /\ is_Some (d !! "zy").
Proof.
  unfold has_planes.
  destruct (d !! "xy"), (d !! "xz"), (d !! "zy"); try discriminate.
  intros _. repeat split; eexists; reflexivity.
Qed.

Lemma indexes_spec (sl : QSlider) (d : Z) :
  indexes sl d = true ->
  minimum sl = 0 /\ maximum sl = d - 1 /\ 0 <= value sl <= d - 1.
Proof.
  unfold indexes. intros H.
  repeat (apply andb_prop in H; destruct H as [H ?]).
  repeat match goal with
         | E : (_ =? _) = true |- _ => apply Z.eqb_eq in E
         | E : (_ <=? _) = true |- _ => apply Z.leb_le in E
         end.
  lia.
Qed.

Lemma loaded_spec (s : t) :
  loaded s = true ->
  exists a, image_array s = Some a /\ np.rectangular a = true /\
            has_planes (brightness s) = true /\ has_planes (contrast s) = true /\
            indexes (xy_slider s) (Spec.extent a Spec.Axis0) = true /\
            indexes (xz_slider s) (Spec.extent a Spec.Axis1) = true /\
            indexes (zy_slider s) (Spec.extent a Spec.Axis2) = true.
Proof.
  unfold loaded. destruct (image_array s) as [a|]; [|discriminate].
  unfold Spec.extent, np.shape3. cbn iota beta.
  rewrite !andb_true_iff. intros (((((Hr & Hb) & Hc) & H0) & H1) & H2).
  exists a. repeat split; assumption.
Qed.

Lemma display_image_run sl l plane zoom s h w b c :
  np.is_grid sl h w -> 1 <= h -> 1 <= w ->
  brightness s !! plane = Some b ->
  contrast s !! plane = Some c ->
  exists frame,
    display_pixels sl b c = Some frame /\
    display_image sl l plane zoom s =
      (Return frame,
       on_label l (setPixmap (scaled (mkQSize w h) (size_times (mkQSize w h) zoom))) s).
Proof.
  intros Hg Hh Hw Hb Hc.
  destruct (grid_min_max sl h w Hg Hh Hw) as [[mn Hmn] [mx Hmx]].
  unfold display_image, display_pixels.
  rewrite (grid_shape2 sl h w Hg Hh), Hmn, Hmx.
  eexists. split; [reflexivity|].
  run. rewrite Hb. simpl. rewrite Hc. reflexivity.
Qed.

Lemma update_image_run (v : label_ref) (s : t) (a : np.ndarray3) (i : Z) :
  image_array s = Some a ->
  np.rectangular a = true ->
  has_planes (brightness s) = true ->
  has_planes (contrast s) = true ->
  0 <= i < Spec.extent a (Spec.normal v) ->
  exists pm, update_image v i s = (Return tt, on_label v (setPixmap pm) s).
Proof.
  intros Ha Hrect Hb Hc Hi.
  destruct (slice_of_grid v a i Hrect Hi) as (sl & Hsl & Hg).
  apply flip_grid in Hg.
  destruct (rectangular_spec a Hrect) as (H0 & H1 & H2 & _).
  destruct (has_planes_spec _ Hb) as ([b1 Hb1] & [b2 Hb2] & [b3 Hb3]).
  destruct (has_planes_spec _ Hc) as ([c1 Hc1] & [c2 Hc2] & [c3 Hc3]).
  destruct v; cbn [Spec.slice_of Spec.vertical Spec.horizontal update_image] in *.
  - edestruct (display_image_run _ XY_label "xy" (zoom_level_xy s) s _ _ b1 c1 Hg)
      as (frame & _ & Hrun); try eassumption.
    eexists. unfold update_xy_image. run. rewrite Ha. run. rewrite Hsl. simpl.
    rewrite Hrun. reflexivity.
  - edestruct (display_image_run _ XZ_label "xz" (zoom_level_xz s) s _ _ b2 c2 Hg)
      as (frame & _ & Hrun); try eassumption.
    eexists. unfold update_xz_image. run. rewrite Ha. run. rewrite Hsl. simpl.
    rewrite Hrun. reflexivity.
  - edestruct (display_image_run _ ZY_label "zy" (zoom_level_yz s) s _ _ b3 c3 Hg)
      as (frame & _ & Hrun); try eassumption.
    eexists. unfold update_zy_image. run. rewrite Ha. run. rewrite Hsl. simpl.
    rewrite Hrun. reflexivity.
Qed.

End Runs.

(** ** Sliders *)

Lemma setValue_in_range (v : Z) (sl : QSlider) :
  minimum sl <= v <= maximum sl -> value (setValue v sl) = v.
Proof. intros H. unfold setValue, qBound. simpl. lia. Qed.

Lemma indexes_setValue (v d : Z) (sl : QSlider) :
  indexes sl d = true -> indexes (setValue v sl) d = true.
Proof.
  intros H. destruct (indexes_spec sl d H) as (Hmin & Hmax & Hv).
  unfold indexes, setValue, qBound. simpl. rewrite Hmin, Hmax.
  rewrite !andb_true_iff, !Z.eqb_eq, !Z.leb_le. lia.
Qed.

(** What [load_image] does to a slider that starts at 0. *)
Lemma indexes_setMaximum (v d : Z) (sl : QSlider) :
  minimum sl = 0 -> 1 <= d ->
  indexes (setValue v (setMaximum (d - 1) sl)) d = true.
Proof.
  intros Hmin Hd. unfold indexes, setValue, setMaximum, setRange, qBound. simpl.
  rewrite Hmin. rewrite !andb_true_iff, !Z.eqb_eq, !Z.leb_le. lia.
Qed.

Lemma value_setMaximum (v d : Z) (sl : QSlider) :
  minimum sl = 0 -> 0 <= v <= d - 1 ->
  value (setValue v (setMaximum (d - 1) sl)) = v.
Proof.
  intros Hmin Hd. unfold setValue, setMaximum, setRange, qBound. simpl.
  rewrite Hmin. lia.
Qed.

Lemma half_in_range (d : Z) : 1 <= d -> 0 <= (d - 1) / 2 <= d - 1.
Proof.
  intros Hd. split.
  - apply Z.div_pos; lia.
  - apply Z.div_le_upper_bound; lia.
Qed.

(** ** Repainting a loaded viewer *)

Section Repaint.

Context {tk : Toolkit}.

Lemma view_state_fields (s s' : t) :
  view_state s' = view_state s ->
  image_array s' = image_array s /\
  brightness s' = brightness s /\ contrast s' = contrast s /\
  current_crosshair s' = current_crosshair s /\
  xy_slider s' = xy_slider s /\ xz_slider s' = xz_slider s /\
  zy_slider s' = zy_slider s.
Proof. unfold view_state. intros H. injection H. intros. repeat split; assumption. Qed.

Lemma update_all_images_run (s : t) :
  loaded s = true ->
  exists s', update_all_images s = (Return tt, s') /\ view_state s' = view_state s.
Proof.
  intros Hl.
  destruct (loaded_spec s Hl) as (a & Ha & Hrect & Hb & Hc & H0 & H1 & H2).
  apply indexes_spec in H0, H1, H2.
  destruct (update_image_run XY_label s a (value (xy_slider s)))
    as (p1 & R1); try assumption; [simpl; lia|].
  destruct (update_image_run XZ_label (on_label XY_label (setPixmap p1) s) a
                             (value (xz_slider s)))
    as (p2 & R2); try assumption; [simpl; lia|].
  destruct (update_image_run ZY_label
              (on_label XZ_label (setPixmap p2) (on_label XY_label (setPixmap p1) s))
              a (value (zy_slider s)))
    as (p3 & R3); try assumption; [simpl; lia|].
  cbn [update_image] in R1, R2, R3.
  eexists. split.
  - unfold update_all_images.
    unfold bind at 1, gets at 1. unfold bind at 1, gets at 1.
    unfold bind at 1, gets at 1.
    rewrite (bind_run _ _ _ _ _ R1), (bind_run _ _ _ _ _ R2). exact R3.
  - reflexivity.
Qed.

Lemma loaded_on_slider (r : slider_ref) (v : Z) (s : t) :
  loaded s = true -> loaded (on_slider r (setValue v) s) = true.
Proof.
  intros Hl.
  destruct (loaded_spec s Hl) as (a & Ha & Hrect & Hb & Hc & H0 & H1 & H2).
  unfold loaded.
  cbn [image_array brightness contrast xy_slider xz_slider zy_slider on_slider].
  rewrite Ha.
  unfold Spec.extent, np.shape3 in *. cbn iota beta in *.
  rewrite Hrect, Hb, Hc.
  destruct r; rewrite ?indexes_setValue by assumption; rewrite ?H0, ?H1, ?H2;
    reflexivity.
Qed.

Lemma loaded_set_current_crosshair (c : option (Z * Z)) (s : t) :
  loaded (set_current_crosshair c s) = loaded s.
Proof. reflexivity. Qed.

End Repaint.

(** ** Loading a volume *)

(** C9 (as amended). Loading a volume clears the crosshair and puts each
    slice slider at [(extent - 1) // 2] of its axis. *)
Theorem load_image_centers {tk : Toolkit} (s : t) (a : np.ndarray3) :
  initialised s = true ->
  np.rectangular a = true ->
  exists s',
    load_image a s = (Return tt, s')
    /\ image_array s' = Some a
    /\ current_crosshair s' = None
    /\ value (xy_slider s') = (Spec.extent a Spec.Axis0 - 1) / 2
    /\ value (xz_slider s') = (Spec.extent a Spec.Axis1 - 1) / 2
    /\ value (zy_slider s') = (Spec.extent a Spec.Axis2 - 1) / 2
    /\ loaded s' = true.
Proof.
  intros Hinit Hrect.
  destruct (rectangular_spec a Hrect) as (H0 & H1 & H2 & _).
  unfold initialised in Hinit. rewrite !andb_true_iff, !Z.eqb_eq in Hinit.
  destruct Hinit as ((((Hb & Hc) & Hm0) & Hm1) & Hm2).
  unfold Spec.extent, np.shape3 in *. cbn iota beta in *.
  unfold load_image, image_array_shape, np.shape3. run.
  match goal with |- context [update_all_images ?s7] => set (s7' := s7) end.
  assert (Hl : loaded s7' = true).
  { unfold loaded, s7', np.shape3. simpl.
    rewrite Hrect, Hb, Hc.
    rewrite !indexes_setMaximum by assumption. reflexivity. }
  destruct (update_all_images_run s7' Hl) as (s' & Hrun & Hvs).
  exists s'. split; [exact Hrun|].
  destruct (view_state_fields _ _ Hvs) as (Ea & _ & _ & Ec & Exy & Exz & Ezy).
  rewrite Ea, Ec, Exy, Exz, Ezy. unfold s7'. simpl.
  repeat split.
  - apply value_setMaximum; [assumption | apply half_in_range; assumption].
  - apply value_setMaximum; [assumption | apply half_in_range; assumption].
  - apply value_setMaximum; [assumption | apply half_in_range; assumption].
  - unfold loaded. rewrite Ea. rewrite (proj1 (proj2 (view_state_fields _ _ Hvs))).
    rewrite (proj1 (proj2 (proj2 (view_state_fields _ _ Hvs)))).
    rewrite Exy, Exz, Ezy. exact Hl.
Qed.

Lemma load_image_centers_witness :
  exists s',
    load_image (tk := qt5) Examples.vol322 Examples.fresh = (Return tt, s')
    /\ current_crosshair s' = None
    /\ value (xy_slider s') = 1
    /\ value (xz_slider s') = 0
    /\ value (zy_slider s') = 0.
Proof.
  destruct (load_image_centers (tk := qt5) Examples.fresh Examples.vol322)
    as (s' & Hrun & _ & Hc & Hxy & Hxz & Hzy & _).
  - vm_compute. reflexivity.
  - vm_compute. reflexivity.
  - exists s'. split; [exact Hrun|]. split; [exact Hc|].
    rewrite Hxy, Hxz, Hzy. repeat split.
Defined.

(** C9, as the specification words it, fails: an axis of extent 4 is
    centred at index 1, not at [4 // 2 = 2]. *)
Lemma load_image_even_extent_counterexample :
  Spec.extent Examples.vol422 Spec.Axis0 = 4 /\
  value (xy_slider (Examples.after (load_image (tk := qt5) Examples.vol422)
                                   Examples.fresh)) = 1 /\
  value (xy_slider (Examples.after (load_image (tk := qt5) Examples.vol422)
                                   Examples.fresh))
    <> Spec.extent Examples.vol422 Spec.Axis0 / 2.
Proof.
  split; [reflexivity|]. split; [vm_compute; reflexivity|].
  vm_compute. discriminate.
Qed.

(** ** Pointer clicks *)

Section ClickArithmetic.

Lemma inject_Z_nonzero (c : Z) : c <> 0 -> ~ (inject_Z c == 0)%Q.
Proof.
  intros Hc H. apply Hc. unfold Qeq in H. simpl in H. lia.
Qed.

(** The mapped index is an integer division. *)
Lemma mapped_index_div (p o c sN : Z) :
  0 < c -> Spec.mapped_index p o c sN = ((p - o) * sN) / c.
Proof.
  intros Hc. unfold Spec.mapped_index. rewrite Zdiv_Qdiv.
  apply Qfloor_comp. rewrite inject_Z_mult. field.
  apply inject_Z_nonzero. lia.
Qed.

Lemma mapped_index_bounds (p o c sN : Z) :
  0 <= p - o < c -> 1 <= sN -> 0 <= Spec.mapped_index p o c sN < sN.
Proof.
  intros Hp Hs. rewrite mapped_index_div by lia. split.
  - apply Z.div_pos; nia.
  - apply Z.div_lt_upper_bound; nia.
Qed.

(** On the non-negative ratio of a click [int] is the floor. *)
Lemma int_mapped_index (p o c sN : Z) :
  0 <= p - o < c -> 0 <= sN ->
  Py.int (inject_Z (p - o) / inject_Z c * inject_Z sN) =
  Spec.mapped_index p o c sN.
Proof.
  intros Hp Hs. unfold Py.int, Spec.mapped_index.
  replace (Qle_bool 0 (inject_Z (p - o) / inject_Z c * inject_Z sN)) with true;
    [reflexivity|].
  symmetry. apply Qle_bool_iff.
  assert (Hc : (0 < inject_Z c)%Q) by (change 0%Q with (inject_Z 0); rewrite <- Zlt_Qlt; lia).
  assert (Hx : (0 <= inject_Z (p - o))%Q) by (change 0%Q with (inject_Z 0); rewrite <- Zle_Qle; lia).
  assert (Hn : (0 <= inject_Z sN)%Q) by (change 0%Q with (inject_Z 0); rewrite <- Zle_Qle; lia).
  apply Qmult_le_0_compat; [|exact Hn].
  apply Qle_shift_div_l; [exact Hc|]. lra.
Qed.

Lemma shift_leb (o x : Z) : (0 <=? x - o) = (o <=? x).
Proof. destruct (Z.leb_spec 0 (x - o)), (Z.leb_spec o x); lia || reflexivity. Qed.

Lemma shift_ltb (o x c : Z) : (x - o <? c) = (x <? o + c).
Proof. destruct (Z.ltb_spec (x - o) c), (Z.ltb_spec x (o + c)); lia || reflexivity. Qed.

End ClickArithmetic.

Section Clicks.

Context {tk : Toolkit}.

(** Before a volume is loaded the handlers fail on [self.image_array.shape]. *)
Lemma mousePressEvent_without_volume (l : label_ref) (pos : Z * Z) (s : t) :
  image_array s = None ->
  mousePressEvent l pos s = (Raise AttributeError, s).
Proof.
  intros Ha.
  destruct l; cbn [mousePressEvent];
    unfold mouse_press_event_xy, mouse_press_event_xz, mouse_press_event_zy,
      image_array_shape; run; rewrite Ha; reflexivity.
Qed.

(** With a volume the handlers run their body on its shape. *)
Lemma mousePressEvent_with_volume (l : label_ref) (pos : Z * Z) (s : t)
      (a : np.ndarray3) :
  image_array s = Some a ->
  mousePressEvent l pos s =
    click_body l pos
      (Spec.extent a (Spec.horizontal l)) (Spec.extent a (Spec.vertical l))
      (Spec.slider_of (Spec.vertical l)) (Spec.extent a (Spec.vertical l) - 1)
      (Spec.slider_of (Spec.horizontal l)) (Spec.extent a (Spec.horizontal l) - 1)
      s.
Proof.
  intros Ha.
  destruct l; cbn [mousePressEvent];
    unfold mouse_press_event_xy, mouse_press_event_xz, mouse_press_event_zy,
      image_array_shape; run; rewrite Ha; reflexivity.
Qed.

Lemma click_body_outside lbl pos shape_x shape_y sy my sx mx (s : t) :
  inside_image (label lbl s) pos = false ->
  click_body lbl pos shape_x shape_y sy my sx mx s = (Return tt, s).
Proof.
  intros Hout. unfold click_body. run.
  destruct (rect_contains (label lbl s) pos && bool_decide (image_array s <> None));
    [|reflexivity].
  unfold inside_image, image_bounds in Hout.
  destruct (pixmap (label lbl s)) as [pm|]; [|reflexivity].
  simpl in Hout. rewrite !shift_leb, !shift_ltb, Hout. reflexivity.
Qed.

Lemma click_body_inside lbl px py shape_x shape_y sy my sx mx (s : t)
      ox oy cw ch :
  image_array s <> None ->
  rect_contains (label lbl s) (px, py) = true ->
  image_bounds (label lbl s) = Some (ox, oy, cw, ch) ->
  ox <= px < ox + cw ->
  oy <= py < oy + ch ->
  0 <= shape_x -> 0 <= shape_y ->
  click_body lbl (px, py) shape_x shape_y sy my sx mx s =
    update_all_images
      (set_current_crosshair (Some (px, py))
         (on_slider sx (setValue (mx - Spec.mapped_index px ox cw shape_x))
            (on_slider sy (setValue (my - Spec.mapped_index py oy ch shape_y)) s))).
Proof.
  intros Ha Hin Hb Hx Hy Hsx Hsy. unfold click_body. run.
  rewrite Hin, (bool_decide_eq_true_2 _ Ha). simpl.
  unfold image_bounds in Hb.
  destruct (pixmap (label lbl s)) as [pm|]; [|discriminate].
  simpl in Hb. injection Hb as Eox Eoy Ecw Ech.
  rewrite Eox, Eoy, Ecw, Ech.
  replace ((0 <=? px - ox) && (px - ox <? cw) && (0 <=? py - oy) && (py - oy <? ch))
    with true
    by (symmetry; rewrite !andb_true_iff, !Z.leb_le, !Z.ltb_lt; lia).
  rewrite !int_mapped_index by lia.
  rewrite !Z.sub_add. reflexivity.
Qed.

End Clicks.

(** *** Clicks, with the index arithmetic in doubles *)

Section DoubleClicks.

Context {tk : Toolkit}.

Lemma double_mousePressEvent_with_volume (l : label_ref) (pos : Z * Z) (s : t)
      (a : np.ndarray3) :
  image_array s = Some a ->
  Double.mousePressEvent l pos s =
    Double.click_body l pos
      (Spec.extent a (Spec.horizontal l)) (Spec.extent a (Spec.vertical l))
      (Spec.slider_of (Spec.vertical l)) (Spec.extent a (Spec.vertical l) - 1)
      (Spec.slider_of (Spec.horizontal l)) (Spec.extent a (Spec.horizontal l) - 1)
      s.
Proof.
  intros Ha.
  destruct l; cbn [Double.mousePressEvent];
    unfold Double.mouse_press_event_xy, Double.mouse_press_event_xz,
      Double.mouse_press_event_zy, image_array_shape; run; rewrite Ha; reflexivity.
Qed.

Lemma double_click_body_inside lbl px py shape_x shape_y sy my sx mx (s : t)
      ox oy cw ch ix iy :
  image_array s <> None ->
  rect_contains (label lbl s) (px, py) = true ->
  image_bounds (label lbl s) = Some (ox, oy, cw, ch) ->
  ox <= px < ox + cw ->
  oy <= py < oy + ch ->
  Double.image_index (px - ox) cw shape_x = Return ix ->
  Double.image_index (py - oy) ch shape_y = Return iy ->
  Double.click_body lbl (px, py) shape_x shape_y sy my sx mx s =
    update_all_images
      (set_current_crosshair (Some (px, py))
         (on_slider sx (setValue (mx - ix))
            (on_slider sy (setValue (my - iy)) s))).
Proof.
  intros Ha Hin Hb Hx Hy Hix Hiy. unfold Double.click_body, Double.lift. run.
  rewrite Hin, (bool_decide_eq_true_2 _ Ha). simpl.
  unfold image_bounds in Hb.
  destruct (pixmap (label lbl s)) as [pm|]; [|discriminate].
  simpl in Hb. injection Hb as Eox Eoy Ecw Ech.
  rewrite Eox, Eoy, Ecw, Ech.
  replace ((0 <=? px - ox) && (px - ox <? cw) && (0 <=? py - oy) && (py - oy <? ch))
    with true
    by (symmetry; rewrite !andb_true_iff, !Z.leb_le, !Z.ltb_lt; lia).
  rewrite Hix, Hiy. rewrite !Z.sub_add. reflexivity.
Qed.

End DoubleClicks.

(** The run of a handler on a click inside the image. *)
Lemma double_click_inside_run {tk : Toolkit} (l : label_ref)
        (s : t) (a : np.ndarray3) (px py ox oy cw ch ix iy : Z) :
  loaded s = true ->
  image_array s = Some a ->
  rect_contains (label l s) (px, py) = true ->
  image_bounds (label l s) = Some (ox, oy, cw, ch) ->
  ox <= px < ox + cw ->
  oy <= py < oy + ch ->
  let sw := Spec.extent a (Spec.horizontal l) in
  let sh := Spec.extent a (Spec.vertical l) in
  Double.image_index (px - ox) cw sw = Return ix ->
  Double.image_index (py - oy) ch sh = Return iy ->
  exists s',
    Double.mousePressEvent l (px, py) s = (Return tt, s')
    /\ value (slider (Spec.slider_of (Spec.horizontal l)) s') =
       qBound 0 (sw - 1 - ix) (sw - 1)
    /\ value (slider (Spec.slider_of (Spec.vertical l)) s') =
       qBound 0 (sh - 1 - iy) (sh - 1)
    /\ (0 <= ix < sw ->
        value (slider (Spec.slider_of (Spec.horizontal l)) s') = sw - 1 - ix)
    /\ (0 <= iy < sh ->
        value (slider (Spec.slider_of (Spec.vertical l)) s') = sh - 1 - iy)
    /\ slider (Spec.slider_of (Spec.normal l)) s' =
       slider (Spec.slider_of (Spec.normal l)) s
    /\ current_crosshair s' = Some (px, py).
Proof.
  intros Hl Ha Hin Hb Hx Hy sw sh Hix Hiy.
  destruct (loaded_spec s Hl) as (a' & Ha' & Hrect & _ & _ & I0 & I1 & I2).
  assert (a' = a) by congruence. subst a'.
  rewrite (double_mousePressEvent_with_volume l _ s a Ha).
  rewrite (double_click_body_inside l px py _ _ _ _ _ _ s ox oy cw ch ix iy)
    by (try assumption; congruence).
  fold sw sh.
  match goal with |- context [update_all_images ?s3] => set (s3' := s3) end.
  assert (Hl3 : loaded s3' = true).
  { unfold s3'. rewrite loaded_set_current_crosshair.
    apply loaded_on_slider, loaded_on_slider, Hl. }
  destruct (update_all_images_run s3' Hl3) as (s' & Hrun & Hvs).
  exists s'. split; [exact Hrun|].
  destruct (view_state_fields _ _ Hvs) as (_ & _ & _ & Ec & Exy & Exz & Ezy).
  apply indexes_spec in I0, I1, I2.
  assert (Hh : value (slider (Spec.slider_of (Spec.horizontal l)) s') =
               qBound 0 (sw - 1 - ix) (sw - 1)).
  { unfold sw.
    destruct l; cbn [Spec.horizontal Spec.vertical Spec.slider_of slider] in *;
      rewrite ?Exy, ?Exz, ?Ezy; unfold s3'; simpl;
      rewrite ?(proj1 I0), ?(proj1 I1), ?(proj1 I2),
        ?(proj1 (proj2 I0)), ?(proj1 (proj2 I1)), ?(proj1 (proj2 I2));
      reflexivity. }
  assert (Hv : value (slider (Spec.slider_of (Spec.vertical l)) s') =
               qBound 0 (sh - 1 - iy) (sh - 1)).
  { unfold sh.
    destruct l; cbn [Spec.horizontal Spec.vertical Spec.slider_of slider] in *;
      rewrite ?Exy, ?Exz, ?Ezy; unfold s3'; simpl;
      rewrite ?(proj1 I0), ?(proj1 I1), ?(proj1 I2),
        ?(proj1 (proj2 I0)), ?(proj1 (proj2 I1)), ?(proj1 (proj2 I2));
      reflexivity. }
  split; [exact Hh|]. split; [exact Hv|].
  split; [intros Hr; rewrite Hh; unfold qBound; lia|].
  split; [intros Hr; rewrite Hv; unfold qBound; lia|].
  split; [|rewrite Ec; reflexivity].
  destruct l; cbn [Spec.normal Spec.slider_of slider];
    rewrite ?Exy, ?Exz, ?Ezy; reflexivity.
Qed.




(** C6. A click outside the centered scaled image leaves the whole viewer
    as it was, and with a volume loaded the handler returns normally. *)
Theorem click_outside_changes_nothing {tk : Toolkit} (l : label_ref)
        (pos : Z * Z) (s : t) :
  inside_image (label l s) pos = false ->
  snd (mousePressEvent l pos s) = s
  /\ (image_array s <> None -> fst (mousePressEvent l pos s) = Return tt).
Proof.
  intros Hout. destruct (image_array s) as [a|] eqn:Ha.
  - rewrite (mousePressEvent_with_volume l pos s a Ha).
    rewrite click_body_outside by exact Hout. split; reflexivity.
  - rewrite (mousePressEvent_without_volume l pos s Ha). split; [reflexivity|].
    intros H. congruence.
Qed.

Lemma click_outside_changes_nothing_witness :
  mousePressEvent (tk := qt5) XY_label (10, 100)
    (Examples.after (load_image (tk := qt5) Examples.vol322) Examples.fresh)
  = (Return tt,
     Examples.after (load_image (tk := qt5) Examples.vol322) Examples.fresh).
Proof.
  destruct (click_outside_changes_nothing (tk := qt5) XY_label (10, 100)
              (Examples.after (load_image (tk := qt5) Examples.vol322) Examples.fresh))
    as [Hs Hr].
  - vm_compute. reflexivity.
  - rewrite (surjective_pairing (mousePressEvent _ _ _)), Hs, Hr; [reflexivity|].
    vm_compute. discriminate.
Defined.

(** C10 fails on the code: in the state the viewer starts in, a click on
    any of the three labels raises [AttributeError] (the handler reads
    [self.image_array.shape] before it tests [self.image_array is not None]). *)
Theorem click_before_load_raises {tk : Toolkit} (l : label_ref) (pos : Z * Z)
        (lxy lxz lzy : QSize) :
  mousePressEvent l pos (init lxy lxz lzy) =
    (Raise AttributeError, init lxy lxz lzy).
Proof. apply mousePressEvent_without_volume. reflexivity. Qed.

(** ** Playback *)

Section Playback.

Context {tk : Toolkit}.

(** A tick repaints the three views, then moves the slider. *)
Lemma update_slice_unfold (view : string) (s : t) :
  update_slice view s =
    bind update_all_images
         (fun _ =>
            let! current_value := gets (fun s => value (slider (get_slider view) s)) in
            let! maximum_ := gets (fun s => maximum (slider (get_slider view) s)) in
            if current_value <? maximum_ - 1
            then modify (on_slider (get_slider view) (setValue (current_value + 1)))
            else modify (on_slider (get_slider view) (setValue 0))) s.
Proof.
  unfold update_slice, update_all_images, bind, gets. simpl.
  destruct (update_xy_image (value (xy_slider s)) s) as [[[]|e] s1]; [|reflexivity].
  destruct (update_xz_image (value (xz_slider s)) s1) as [[[]|e] s2]; [|reflexivity].
  destruct (update_zy_image (value (zy_slider s)) s2) as [[[]|e] s3]; reflexivity.
Qed.

(** What one tick does to the slice index of the playing view. *)
Lemma update_slice_run (view : string) (s : t) :
  loaded s = true ->
  exists s',
    update_slice view s = (Return tt, s')
    /\ value (slider (get_slider view) s') =
       (if value (slider (get_slider view) s) <? maximum (slider (get_slider view) s) - 1
        then value (slider (get_slider view) s) + 1
        else 0).
Proof.
  intros Hl.
  destruct (loaded_spec s Hl) as (a & Ha & Hrect & _ & _ & I0 & I1 & I2).
  destruct (rectangular_spec a Hrect) as (E0 & E1 & E2 & _).
  apply indexes_spec in I0, I1, I2.
  destruct (update_all_images_run s Hl) as (s1 & Hrun & Hvs).
  destruct (view_state_fields _ _ Hvs) as (_ & _ & _ & _ & Exy & Exz & Ezy).
  rewrite update_slice_unfold, (bind_run _ _ _ _ _ Hrun).
  unfold bind, gets. cbn beta iota.
  assert (Hs : slider (get_slider view) s1 = slider (get_slider view) s)
    by (destruct (get_slider view); assumption).
  rewrite Hs.
  destruct (value (slider (get_slider view) s) <? maximum (slider (get_slider view) s) - 1)
    eqn:Hlt; eexists; (split; [reflexivity|]).
  - apply Z.ltb_lt in Hlt.
    destruct (get_slider view); simpl in *; rewrite ?Exy, ?Exz, ?Ezy;
      apply setValue_in_range; lia.
  - destruct (get_slider view); simpl in *; rewrite ?Exy, ?Exz, ?Ezy;
      apply setValue_in_range; lia.
Qed.

(** From the last index but one the tick already goes back to 0. *)
Lemma update_slice_from_penultimate (view : string) (s : t) :
  loaded s = true ->
  value (slider (get_slider view) s) = maximum (slider (get_slider view) s) - 1 ->
  exists s',
    update_slice view s = (Return tt, s')
    /\ value (slider (get_slider view) s') = 0.
Proof.
  intros Hl Hv. destruct (update_slice_run view s Hl) as (s' & Hrun & Hval).
  exists s'. split; [exact Hrun|]. rewrite Hval, Hv, Z.ltb_irrefl. reflexivity.
Qed.

End Playback.

(** C1 fails on the code: on an axis of extent 3 the tick from index
    [extent - 2 = 1] goes to 0, where [(1 + 1) mod 3 = 2]; the last slice is
    skipped. *)
Theorem update_slice_skips_last_slice :
  let s := Examples.after (load_image (tk := qt5) Examples.vol322) Examples.fresh in
  Spec.extent Examples.vol322 Spec.Axis0 = 3
  /\ value (xy_slider s) = 1
  /\ fst (update_slice (tk := qt5) "xy" s) = Return tt
  /\ value (xy_slider (Examples.after (update_slice (tk := qt5) "xy") s)) = 0
  /\ Spec.tick 1 3 = 2.
Proof. vm_compute. repeat split. Qed.

(** ** Brightness and contrast sliders *)

(** C2 fails on the code: the callback of the brightness slider stores
    [value / 100] in [self.contrast] and leaves [self.brightness] alone, and
    the callback of the contrast slider stores [value] in [self.brightness]
    and leaves [self.contrast] alone. *)
Theorem brightness_slider_writes_contrast {tk : Toolkit} (s : t) (value : Z)
        (view : string) :
  brightness (snd (update_brightness value view s)) = brightness s
  /\ contrast (snd (update_brightness value view s)) =
     <[view := (inject_Z value / 100)%Q]> (contrast s)
  /\ contrast (snd (update_contrast value view s)) = contrast s
  /\ brightness (snd (update_contrast value view s)) =
     <[view := inject_Z value]> (brightness s).
Proof.
  unfold update_brightness, update_contrast, bind, modify. cbn beta iota.
  pose proof (repaints_update_all_images
                (set_contrast (<[view := (inject_Z value / 100)%Q]> (contrast s)) s)) as H1.
  pose proof (repaints_update_all_images
                (set_brightness (<[view := inject_Z value]> (brightness s)) s)) as H2.
  apply view_state_fields in H1, H2.
  destruct H1 as (_ & B1 & C1 & _). destruct H2 as (_ & B2 & C2 & _).
  repeat split; assumption.
Qed.

(** The same on the viewer as started: moving the brightness slider of the
    axial view to 150 leaves its brightness at 0 and makes its contrast 1.5. *)
Lemma update_brightness_fresh :
  let s := Examples.after (update_brightness (tk := qt5) 150 "xy") Examples.fresh in
  brightness s !! "xy" = Some 0%Q
  /\ contrast s !! "xy" = Some (inject_Z 150 / 100)%Q
  /\ (inject_Z 150 / 100 == 1.5)%Q.
Proof. vm_compute. repeat split. Qed.

(** * Further properties of the code *)

(** ** What [display_image] puts on screen *)

(** X3. A slice without pixels makes [display_image] raise [ValueError]
    (from [np.min]) before anything is painted. *)
Theorem display_image_empty_slice {tk : Toolkit} (sl : np.ndarray2) (l : label_ref)
        (plane : string) (zoom : Q) (s : t) :
  concat sl = [] ->
  display_image sl l plane zoom s = (Raise ValueError, s).
Proof.
  intros He. unfold display_image. destruct (np.shape2 sl) as [h w].
  unfold np.min, np.reduce. rewrite He. reflexivity.
Qed.

Lemma display_image_empty_slice_witness :
  display_image (tk := qt5) [[]; []] XY_label "xy" 0.4%Q Examples.fresh
  = (Raise ValueError, Examples.fresh).
Proof. apply display_image_empty_slice. reflexivity. Defined.

(** X4. A plane name the brightness or contrast dictionary does not know
    makes [display_image] raise [KeyError], and the label keeps what it
    showed. *)
Theorem display_image_unknown_plane {tk : Toolkit} (sl : np.ndarray2)
        (l : label_ref) (plane : string) (zoom : Q) (s : t) :
  concat sl <> [] ->
  brightness s !! plane = None \/ contrast s !! plane = None ->
  display_image sl l plane zoom s = (Raise KeyError, s).
Proof.
  intros Hne Hmiss. unfold display_image. destruct (np.shape2 sl) as [h w].
  destruct (reduce_is_Some Qmin _ Hne) as [mn Hmn].
  destruct (reduce_is_Some Qmax _ Hne) as [mx Hmx].
  unfold np.min, np.max. rewrite Hmn, Hmx. run.
  destruct (brightness s !! plane) as [b|] eqn:Hb; simpl.
  - destruct Hmiss as [H|H]; [discriminate|]. rewrite H. reflexivity.
  - reflexivity.
Qed.

Lemma display_image_unknown_plane_witness :
  display_image (tk := qt5) [[1; 2]]%Q ZY_label "yz" 0.4%Q Examples.fresh
  = (Raise KeyError, Examples.fresh).
Proof.
  apply display_image_unknown_plane; [discriminate|].
  left. vm_compute. reflexivity.
Defined.

(** ** Before a volume is loaded *)

Section WithoutVolume.

Context {tk : Toolkit}.

Lemma update_image_without_volume (v : label_ref) (i : Z) (s : t) :
  image_array s = None -> update_image v i s = (Return tt, s).
Proof.
  intros Ha.
  destruct v; cbn [update_image];
    unfold update_xy_image, update_xz_image, update_zy_image; run;
    rewrite Ha; reflexivity.
Qed.

Lemma update_all_images_without_volume (s : t) :
  image_array s = None -> update_all_images s = (Return tt, s).
Proof.
  intros Ha. unfold update_all_images.
  unfold bind at 1, gets at 1. unfold bind at 1, gets at 1.
  unfold bind at 1, gets at 1.
  pose proof (update_image_without_volume XY_label (value (xy_slider s)) s Ha) as R1.
  pose proof (update_image_without_volume XZ_label (value (xz_slider s)) s Ha) as R2.
  pose proof (update_image_without_volume ZY_label (value (zy_slider s)) s Ha) as R3.
  cbn [update_image] in R1, R2, R3.
  rewrite (bind_run _ _ _ _ _ R1), (bind_run _ _ _ _ _ R2). exact R3.
Qed.

End WithoutVolume.

(** X5. Before a volume is loaded the repaint, the crosshair timer and the
    pointer moves return normally and paint nothing; a move over a label
    only records the crosshair. *)
Theorem quiet_without_volume {tk : Toolkit} (s : t) :
  image_array s = None ->
  update_all_images s = (Return tt, s)
  /\ update_crosshair s = (Return tt, s)
  /\ forall l pos,
       mouseMoveEvent l pos s =
       (Return tt,
        if rect_contains (label l s) pos
        then set_current_crosshair (Some pos) s else s).
Proof.
  intros Ha. split; [apply update_all_images_without_volume, Ha|]. split.
  - unfold update_crosshair. run.
    destruct (current_crosshair s); [|reflexivity].
    apply update_all_images_without_volume, Ha.
  - intros l [px py].
    destruct l; cbn [mouseMoveEvent];
      unfold mouse_move_event_xy, mouse_move_event_xz, mouse_move_event_zy,
        move_body; run;
      match goal with |- context [rect_contains ?lb ?p] =>
        destruct (rect_contains lb p) end;
      try reflexivity;
      apply update_all_images_without_volume; exact Ha.
Qed.

Lemma quiet_without_volume_witness :
  mouseMoveEvent (tk := qt5) XY_label (10, 10) Examples.fresh =
  (Return tt, set_current_crosshair (Some (10, 10)) Examples.fresh).
Proof.
  destruct (quiet_without_volume (tk := qt5) Examples.fresh) as (_ & _ & H).
  - reflexivity.
  - rewrite H. reflexivity.
Defined.

(** X6. The playback tick does not need a volume: without one it paints
    nothing and still moves the slider of its view, by the same rule, inside
    whatever range the slider has. *)
Theorem update_slice_without_volume {tk : Toolkit} (view : string) (s : t) :
  image_array s = None ->
  update_slice view s =
    (Return tt,
     on_slider (get_slider view)
       (setValue
          (if value (slider (get_slider view) s)
              <? maximum (slider (get_slider view) s) - 1
           then value (slider (get_slider view) s) + 1 else 0)) s).
Proof.
  intros Ha. rewrite update_slice_unfold.
  rewrite (bind_run _ _ _ _ _ (update_all_images_without_volume s Ha)).
  unfold bind, gets, modify. cbn beta iota.
  destruct (value (slider (get_slider view) s)
              <? maximum (slider (get_slider view) s) - 1); reflexivity.
Qed.

Lemma update_slice_without_volume_witness :
  value (xy_slider (Examples.after (update_slice (tk := qt5) "xy") Examples.fresh)) = 1
  /\ maximum (xy_slider Examples.fresh) = 99.
Proof.
  unfold Examples.after.
  rewrite (update_slice_without_volume (tk := qt5) "xy" Examples.fresh eq_refl).
  split; reflexivity.
Defined.

(** ** Pointer moves and the crosshair timer *)

(** X7. A pointer move never touches a slider, the volume, the brightness,
    the contrast or the zoom, whatever happens while repainting; off the
    label it changes nothing at all, on the label (also in the padding
    around the image) the crosshair becomes the pointer position. *)
Theorem mouse_move_only_moves_crosshair {tk : Toolkit} (l : label_ref)
        (pos : Z * Z) (s : t) :
  let s' := snd (mouseMoveEvent l pos s) in
  image_array s' = image_array s
  /\ brightness s' = brightness s /\ contrast s' = contrast s
  /\ xy_slider s' = xy_slider s /\ xz_slider s' = xz_slider s
  /\ zy_slider s' = zy_slider s
  /\ (rect_contains (label l s) pos = false -> s' = s)
  /\ (rect_contains (label l s) pos = true -> current_crosshair s' = Some pos).
Proof.
  destruct pos as [px py].
  assert (H : mouseMoveEvent l (px, py) s =
              if rect_contains (label l s) (px, py)
              then update_all_images (set_current_crosshair (Some (px, py)) s)
              else (Return tt, s)).
  { destruct l; cbn [mouseMoveEvent];
      unfold mouse_move_event_xy, mouse_move_event_xz, mouse_move_event_zy,
        move_body; run;
      match goal with |- context [rect_contains ?lb ?p] =>
        destruct (rect_contains lb p) end; reflexivity. }
  cbv zeta. rewrite H.
  destruct (rect_contains (label l s) (px, py)).
  - pose proof (repaints_update_all_images
                  (set_current_crosshair (Some (px, py)) s)) as Hv.
    apply view_state_fields in Hv.
    destruct Hv as (Ea & Eb & Ec & Ecr & Exy & Exz & Ezy).
    repeat split; intros; try discriminate; assumption.
  - repeat split; intros; try discriminate; reflexivity.
Qed.

Lemma mouse_move_only_moves_crosshair_witness :
  snd (mouseMoveEvent (tk := qt5) XY_label (500, 10) Examples.viewing)
  = Examples.viewing
  /\ current_crosshair
       (snd (mouseMoveEvent (tk := qt5) XY_label (10, 100) Examples.viewing))
     = Some (10, 100).
Proof.
  pose proof (mouse_move_only_moves_crosshair (tk := qt5) XY_label (500, 10)
                Examples.viewing) as H1.
  pose proof (mouse_move_only_moves_crosshair (tk := qt5) XY_label (10, 100)
                Examples.viewing) as H2.
  cbv zeta in H1, H2.
  destruct H1 as (_ & _ & _ & _ & _ & _ & Hout & _).
  destruct H2 as (_ & _ & _ & _ & _ & _ & _ & Hin).
  split; [apply Hout | apply Hin]; vm_compute; reflexivity.
Defined.

(** ** A loaded viewer stays loaded *)

Section Invariant.

Context {tk : Toolkit}.

Lemma loaded_view_state (s s' : t) :
  view_state s' = view_state s -> loaded s' = loaded s.
Proof.
  intros H. destruct (view_state_fields _ _ H) as (Ea & Eb & Ec & _ & Exy & Exz & Ezy).
  unfold loaded. rewrite Ea, Eb, Ec, Exy, Exz, Ezy. reflexivity.
Qed.

Lemma update_all_images_loaded (s : t) :
  loaded s = true ->
  exists s', update_all_images s = (Return tt, s')
             /\ view_state s' = view_state s /\ loaded s' = true.
Proof.
  intros Hl. destruct (update_all_images_run s Hl) as (s' & Hrun & Hvs).
  exists s'. repeat split; try assumption.
  rewrite (loaded_view_state _ _ Hvs). exact Hl.
Qed.

Lemma has_planes_intro {V : Type} (d : gmap string V) :
  is_Some (d !! "xy") -> is_Some (d !! "xz") -> is_Some (d !! "zy") ->
  has_planes d = true.
Proof. intros [? H1] [? H2] [? H3]. unfold has_planes. rewrite H1, H2, H3. reflexivity. Qed.

Lemma has_planes_insert {V : Type} (d : gmap string V) (k : string) (v : V) :
  has_planes d = true -> has_planes (<[k := v]> d) = true.
Proof.
  intros H. destruct (has_planes_spec d H) as (H1 & H2 & H3).
  apply has_planes_intro; apply lookup_insert_is_Some';  right; assumption.
Qed.

Lemma loaded_initialised (s : t) : loaded s = true -> initialised s = true.
Proof.
  intros Hl. destruct (loaded_spec s Hl) as (a & _ & _ & Hb & Hc & I0 & I1 & I2).
  apply indexes_spec in I0, I1, I2.
  unfold initialised. rewrite Hb, Hc.
  rewrite !andb_true_iff, !Z.eqb_eq. intuition.
Qed.

Lemma click_body_loaded lbl pos shape_x shape_y sy my sx mx (s : t) :
  loaded s = true ->
  exists s', click_body lbl pos shape_x shape_y sy my sx mx s = (Return tt, s')
             /\ loaded s' = true.
Proof.
  intros Hl. unfold click_body. run.
  destruct (rect_contains (label lbl s) pos && bool_decide (image_array s <> None));
    [|exists s; split; [reflexivity | exact Hl]].
  destruct (pixmap (label lbl s)) as [pm|];
    [|exists s; split; [reflexivity | exact Hl]].
  match goal with |- context [if ?c then _ else _] => destruct c end;
    [|exists s; split; [reflexivity | exact Hl]].
  match goal with |- context [update_all_images ?s3] =>
    destruct (update_all_images_loaded s3) as (s' & Hrun & _ & Hl')
  end.
  - apply (loaded_on_slider sx _ (on_slider sy _ s)), loaded_on_slider, Hl.
  - exists s'. split; [exact Hrun | exact Hl'].
Qed.

Lemma mousePressEvent_loaded (l : label_ref) (pos : Z * Z) (s : t) :
  loaded s = true ->
  exists s', mousePressEvent l pos s = (Return tt, s') /\ loaded s' = true.
Proof.
  intros Hl. destruct (loaded_spec s Hl) as (a & Ha & _).
  rewrite (mousePressEvent_with_volume l pos s a Ha).
  apply click_body_loaded, Hl.
Qed.

Lemma mouseMoveEvent_loaded (l : label_ref) (pos : Z * Z) (s : t) :
  loaded s = true ->
  exists s', mouseMoveEvent l pos s = (Return tt, s') /\ loaded s' = true.
Proof.
  intros Hl.
  assert (H : mouseMoveEvent l pos s =
              if rect_contains (label l s) pos
              then update_all_images
                     (set_current_crosshair (Some (fst pos, snd pos)) s)
              else (Return tt, s)).
  { destruct l; cbn [mouseMoveEvent];
      unfold mouse_move_event_xy, mouse_move_event_xz, mouse_move_event_zy,
        move_body; run;
      match goal with |- context [rect_contains ?lb ?p] =>
        destruct (rect_contains lb p) end; reflexivity. }
  rewrite H. destruct (rect_contains (label l s) pos).
  - destruct (update_all_images_loaded
                (set_current_crosshair (Some (fst pos, snd pos)) s))
      as (s' & Hrun & _ & Hl'); [exact Hl|].
    exists s'. split; assumption.
  - exists s. split; [reflexivity | exact Hl].
Qed.

(** The state a tick ends in. *)
Lemma update_slice_state (view : string) (s : t) :
  loaded s = true ->
  exists s1,
    view_state s1 = view_state s /\ loaded s1 = true /\
    update_slice view s =
      (Return tt,
       on_slider (get_slider view)
         (setValue
            (if value (slider (get_slider view) s)
                <? maximum (slider (get_slider view) s) - 1
             then value (slider (get_slider view) s) + 1 else 0)) s1).
Proof.
  intros Hl. destruct (update_all_images_loaded s Hl) as (s1 & Hrun & Hvs & Hl1).
  exists s1. split; [exact Hvs|]. split; [exact Hl1|].
  destruct (view_state_fields _ _ Hvs) as (_ & _ & _ & _ & Exy & Exz & Ezy).
  rewrite update_slice_unfold, (bind_run _ _ _ _ _ Hrun).
  unfold bind, gets, modify. cbn beta iota.
  assert (Hs : slider (get_slider view) s1 = slider (get_slider view) s)
    by (destruct (get_slider view); assumption).
  rewrite Hs.
  destruct (value (slider (get_slider view) s)
              <? maximum (slider (get_slider view) s) - 1); reflexivity.
Qed.

Lemma update_slice_loaded (view : string) (s : t) :
  loaded s = true ->
  exists s', update_slice view s = (Return tt, s') /\ loaded s' = true.
Proof.
  intros Hl. destruct (update_slice_state view s Hl) as (s1 & _ & Hl1 & Hrun).
  eexists. split; [exact Hrun|]. apply loaded_on_slider, Hl1.
Qed.

Lemma update_brightness_loaded (value : Z) (view : string) (s : t) :
  loaded s = true ->
  exists s', update_brightness value view s = (Return tt, s') /\ loaded s' = true.
Proof.
  intros Hl. unfold update_brightness, bind, modify. cbn beta iota.
  match goal with |- context [update_all_images ?s1] =>
    destruct (update_all_images_loaded s1) as (s' & Hrun & _ & Hl') end.
  - destruct (loaded_spec s Hl) as (a & Ha & Hrect & Hb & Hc & I0 & I1 & I2).
    unfold loaded. cbn [image_array brightness contrast xy_slider xz_slider
                        zy_slider set_contrast].
    rewrite Ha. unfold Spec.extent, np.shape3 in *. cbn iota beta in *.
    rewrite Hrect, Hb, I0, I1, I2, (has_planes_insert _ _ _ Hc). reflexivity.
  - exists s'. split; assumption.
Qed.

Lemma update_contrast_loaded (value : Z) (view : string) (s : t) :
  loaded s = true ->
  exists s', update_contrast value view s = (Return tt, s') /\ loaded s' = true.
Proof.
  intros Hl. unfold update_contrast, bind, modify. cbn beta iota.
  match goal with |- context [update_all_images ?s1] =>
    destruct (update_all_images_loaded s1) as (s' & Hrun & _ & Hl') end.
  - destruct (loaded_spec s Hl) as (a & Ha & Hrect & Hb & Hc & I0 & I1 & I2).
    unfold loaded. cbn [image_array brightness contrast xy_slider xz_slider
                        zy_slider set_brightness].
    rewrite Ha. unfold Spec.extent, np.shape3 in *. cbn iota beta in *.
    rewrite Hrect, Hc, I0, I1, I2, (has_planes_insert _ _ _ Hb). reflexivity.
  - exists s'. split; assumption.
Qed.

Lemma adjust_zoom_loaded (zs : ZoomSliders) (view : string) (s : t) :
  loaded s = true ->
  exists s', adjust_zoom zs view s = (Return tt, s') /\ loaded s' = true.
Proof.
  intros Hl. unfold adjust_zoom.
  destruct (String.eqb view "xy"); [eexists; split; [reflexivity | exact Hl]|].
  destruct (String.eqb view "xz"); [eexists; split; [reflexivity | exact Hl]|].
  destruct (String.eqb view "yz"); eexists; split; try reflexivity; exact Hl.
Qed.

Lemma update_crosshair_loaded (s : t) :
  loaded s = true ->
  exists s', update_crosshair s = (Return tt, s') /\ loaded s' = true.
Proof.
  intros Hl. unfold update_crosshair. run.
  destruct (current_crosshair s).
  - destruct (update_all_images_loaded s Hl) as (s' & Hrun & _ & Hl').
    exists s'. split; assumption.
  - exists s. split; [reflexivity | exact Hl].
Qed.

Lemma load_image_loaded (a : np.ndarray3) (s : t) :
  initialised s = true ->
  np.rectangular a = true ->
  exists s', load_image a s = (Return tt, s') /\ loaded s' = true.
Proof.
  intros Hinit Hrect.
  destruct (rectangular_spec a Hrect) as (H0 & H1 & H2 & _).
  unfold initialised in Hinit. rewrite !andb_true_iff, !Z.eqb_eq in Hinit.
  destruct Hinit as ((((Hb & Hc) & Hm0) & Hm1) & Hm2).
  unfold Spec.extent, np.shape3 in *. cbn iota beta in *.
  unfold load_image, image_array_shape, np.shape3. run.
  match goal with |- context [update_all_images ?s7] =>
    destruct (update_all_images_loaded s7) as (s' & Hrun & _ & Hl') end.
  - unfold loaded, np.shape3. simpl.
    rewrite Hrect, Hb, Hc.
    rewrite !indexes_setMaximum by assumption. reflexivity.
  - exists s'. split; assumption.
Qed.

Lemma dispatch_loaded (e : event) (s : t) :
  loaded s = true ->
  deliverable e = true ->
  exists s', dispatch e s = (Return tt, s') /\ loaded s' = true.
Proof.
  intros Hl He. destruct e; cbn [dispatch].
  - apply mousePressEvent_loaded, Hl.
  - apply mouseMoveEvent_loaded, Hl.
  - apply update_slice_loaded, Hl.
  - apply update_brightness_loaded, Hl.
  - apply update_contrast_loaded, Hl.
  - apply adjust_zoom_loaded, Hl.
  - apply update_crosshair_loaded, Hl.
  - apply load_image_loaded; [apply loaded_initialised, Hl | exact He].
Qed.

End Invariant.

(** X8. Once a volume is loaded no sequence of clicks, pointer moves,
    playback ticks, slider changes, timer ticks and further loads raises an
    exception, and after it the viewer still holds a volume with every slice
    index inside its axis. *)
Theorem run_events_safe {tk : Toolkit} (es : list event) (s : t) :
  loaded s = true ->
  forallb deliverable es = true ->
  exists s' a,
    run_events es s = (Return tt, s')
    /\ image_array s' = Some a
    /\ 0 <= value (xy_slider s') < Spec.extent a Spec.Axis0
    /\ 0 <= value (xz_slider s') < Spec.extent a Spec.Axis1
    /\ 0 <= value (zy_slider s') < Spec.extent a Spec.Axis2.
Proof.
  intros Hl Hes.
  assert (H : exists s', run_events es s = (Return tt, s') /\ loaded s' = true).
  { revert s Hl. induction es as [|e es IH]; intros s Hl.
    - exists s. split; [reflexivity | exact Hl].
    - simpl in Hes. apply andb_prop in Hes. destruct Hes as [He Hes].
      destruct (dispatch_loaded e s Hl He) as (s1 & Hrun & Hl1).
      destruct (IH Hes s1 Hl1) as (s' & Hrun' & Hl').
      exists s'. split; [|exact Hl'].
      cbn [run_events]. rewrite (bind_run _ _ _ _ _ Hrun). exact Hrun'. }
  destruct H as (s' & Hrun & Hl').
  destruct (loaded_spec s' Hl') as (a & Ha & _ & _ & _ & I0 & I1 & I2).
  apply indexes_spec in I0, I1, I2.
  exists s', a. repeat split; try assumption; lia.
Qed.

Lemma run_events_safe_witness :
  exists s' a,
    run_events (tk := qt5)
      [MouseMove XY_label (70, 20); MousePress XY_label (60, 10);
       PlaybackTick "xy"; ContrastChanged 50 "xy"; CrosshairTimer;
       ImageLoaded Examples.vol422; PlaybackTick "yz"]
      Examples.viewing = (Return tt, s')
    /\ image_array s' = Some a
    /\ 0 <= value (xy_slider s') < Spec.extent a Spec.Axis0
    /\ 0 <= value (xz_slider s') < Spec.extent a Spec.Axis1
    /\ 0 <= value (zy_slider s') < Spec.extent a Spec.Axis2.
Proof.
  apply (run_events_safe (tk := qt5)).
  - vm_compute. reflexivity.
  - vm_compute. reflexivity.
Defined.

(** X9. On a loaded viewer a playback tick returns normally, moves the
    slider of its view from [v] to [v + 1] when [v < maximum - 1] and to 0
    otherwise, so that (on an axis of more than one slice) it never lands on
    the last index; the other two sliders, the range and the crosshair stay
    as they were. *)
Theorem update_slice_step {tk : Toolkit} (view : string) (s : t) :
  loaded s = true ->
  let r := get_slider view in
  exists s',
    update_slice view s = (Return tt, s')
    /\ value (slider r s') =
       (if value (slider r s) <? maximum (slider r s) - 1
        then value (slider r s) + 1 else 0)
    /\ maximum (slider r s') = maximum (slider r s)
    /\ (1 <= maximum (slider r s) -> value (slider r s') < maximum (slider r s))
    /\ (forall r', r' <> r -> slider r' s' = slider r' s)
    /\ current_crosshair s' = current_crosshair s.
Proof.
  intros Hl r.
  destruct (update_slice_state view s Hl) as (s1 & Hvs & _ & Hrun).
  destruct (view_state_fields _ _ Hvs) as (_ & _ & _ & Ecr & Exy & Exz & Ezy).
  destruct (loaded_spec s Hl) as (a & _ & _ & _ & _ & I0 & I1 & I2).
  apply indexes_spec in I0, I1, I2.
  fold r in Hrun. eexists. split; [exact Hrun|].
  assert (Hs : slider r s1 = slider r s) by (destruct r; assumption).
  assert (Hrange : minimum (slider r s) = 0 /\
                   0 <= value (slider r s) <= maximum (slider r s))
    by (destruct r; simpl; lia).
  assert (Hval : value (slider r
                   (on_slider r
                      (setValue (if value (slider r s) <? maximum (slider r s) - 1
                                 then value (slider r s) + 1 else 0)) s1)) =
                 (if value (slider r s) <? maximum (slider r s) - 1
                  then value (slider r s) + 1 else 0)).
  { destruct r; simpl in *; rewrite ?Exy, ?Exz, ?Ezy;
      apply setValue_in_range;
      match goal with |- context [if ?c then _ else _] => destruct c eqn:E end;
      try apply Z.ltb_lt in E; lia. }
  split; [exact Hval|]. split; [destruct r; simpl in *; congruence|].
  split.
  - intros Hm. rewrite Hval.
    destruct (value (slider r s) <? maximum (slider r s) - 1) eqn:E;
      [apply Z.ltb_lt in E|]; lia.
  - split; [|exact Ecr].
    intros r' Hne. destruct r, r'; try congruence; simpl; assumption.
Qed.

Lemma update_slice_step_witness :
  exists s',
    update_slice (tk := qt5) "xy" Examples.viewing = (Return tt, s')
    /\ value (xy_slider s') = 0
    /\ maximum (xy_slider s') = 2.
Proof.
  destruct (update_slice_step (tk := qt5) "xy" Examples.viewing)
    as (s' & Hrun & Hv & Hm & _).
  - vm_compute. reflexivity.
  - exists s'. split; [exact Hrun|]. split.
    + etransitivity; [exact Hv|]. vm_compute. reflexivity.
    + etransitivity; [exact Hm|]. vm_compute. reflexivity.
Defined.

(** ** More on clicks *)

(** What a click inside the image of a loaded viewer does (all three views). *)
Lemma click_inside_run {tk : Toolkit} (l : label_ref) (s : t)
      (a : np.ndarray3) (px py ox oy cw ch : Z) :
  loaded s = true ->
  image_array s = Some a ->
  rect_contains (label l s) (px, py) = true ->
  image_bounds (label l s) = Some (ox, oy, cw, ch) ->
  ox <= px < ox + cw ->
  oy <= py < oy + ch ->
  exists s',
    mousePressEvent l (px, py) s = (Return tt, s')
    /\ value (slider (Spec.slider_of (Spec.horizontal l)) s') =
       Spec.extent a (Spec.horizontal l) - 1
       - Spec.mapped_index px ox cw (Spec.extent a (Spec.horizontal l))
    /\ value (slider (Spec.slider_of (Spec.vertical l)) s') =
       Spec.extent a (Spec.vertical l) - 1
       - Spec.mapped_index py oy ch (Spec.extent a (Spec.vertical l))
    /\ slider (Spec.slider_of (Spec.normal l)) s' =
       slider (Spec.slider_of (Spec.normal l)) s.
Proof.
  intros Hl Ha Hin Hb Hx Hy.
  set (sw := Spec.extent a (Spec.horizontal l)).
  set (sh := Spec.extent a (Spec.vertical l)).
  destruct (loaded_spec s Hl) as (a' & Ha' & Hrect & _ & _ & I0 & I1 & I2).
  assert (a' = a) by congruence. subst a'.
  destruct (rectangular_spec a Hrect) as (E0 & E1 & E2 & _).
  assert (Hsw : 1 <= sw) by (unfold sw; destruct l; assumption).
  assert (Hsh : 1 <= sh) by (unfold sh; destruct l; assumption).
  pose proof (mapped_index_bounds px ox cw sw ltac:(lia) Hsw) as Hix.
  pose proof (mapped_index_bounds py oy ch sh ltac:(lia) Hsh) as Hiy.
  rewrite (mousePressEvent_with_volume l _ s a Ha).
  rewrite (click_body_inside l px py _ _ _ _ _ _ s ox oy cw ch)
    by (try assumption; try congruence; fold sw sh; lia).
  fold sw sh.
  match goal with |- context [update_all_images ?s3] => set (s3' := s3) end.
  assert (Hl3 : loaded s3' = true).
  { unfold s3'. rewrite loaded_set_current_crosshair.
    apply loaded_on_slider, loaded_on_slider, Hl. }
  destruct (update_all_images_run s3' Hl3) as (s' & Hrun & Hvs).
  exists s'. split; [exact Hrun|].
  destruct (view_state_fields _ _ Hvs) as (_ & _ & _ & _ & Exy & Exz & Ezy).
  apply indexes_spec in I0, I1, I2.
  destruct l;
    cbn [Spec.horizontal Spec.vertical Spec.normal Spec.slider_of slider] in *;
    rewrite ?Exy, ?Exz, ?Ezy; unfold s3'; simpl;
    (split; [apply setValue_in_range; lia|]);
    (split; [apply setValue_in_range; lia|]); reflexivity.
Qed.

Lemma mapped_index_center (k sN : Z) :
  0 < k -> Spec.mapped_index k 0 (2 * k) sN = sN / 2.
Proof.
  intros Hk. rewrite mapped_index_div by lia.
  rewrite Z.sub_0_r, (Z.mul_comm 2 k). apply Z.div_mul_cancel_l; lia.
Qed.

(** X10. When the scaled image fills a label of even width and height
    exactly, a click at the center of the label maps to the center index of
    the slice, rounded down: the two other sliders go to
    [extent - 1 - extent // 2] of their axes. *)
Theorem click_center {tk : Toolkit} (l : label_ref) (s : t) (a : np.ndarray3)
        (kx ky : Z) :
  loaded s = true ->
  image_array s = Some a ->
  width (label l s) = 2 * kx ->
  height (label l s) = 2 * ky ->
  image_bounds (label l s) = Some (0, 0, 2 * kx, 2 * ky) ->
  0 < kx -> 0 < ky ->
  exists s',
    mousePressEvent l (kx, ky) s = (Return tt, s')
    /\ value (slider (Spec.slider_of (Spec.horizontal l)) s') =
       Spec.extent a (Spec.horizontal l) - 1 - Spec.extent a (Spec.horizontal l) / 2
    /\ value (slider (Spec.slider_of (Spec.vertical l)) s') =
       Spec.extent a (Spec.vertical l) - 1 - Spec.extent a (Spec.vertical l) / 2.
Proof.
  intros Hl Ha Hw Hh Hb Hkx Hky.
  destruct (click_inside_run l s a kx ky 0 0 (2 * kx) (2 * ky))
    as (s' & Hrun & Hx & Hy & _); try assumption; try lia.
  - unfold rect_contains. rewrite Hw, Hh. simpl fst. simpl snd.
    rewrite !andb_true_iff, !Z.leb_le. lia.
  - exists s'. rewrite !mapped_index_center in * by assumption.
    repeat split; assumption.
Qed.

Lemma click_center_witness :
  exists s',
    mousePressEvent (tk := qt5) XY_label (150, 150) Examples.viewing_square
    = (Return tt, s')
    /\ value (zy_slider s') = 0
    /\ value (xz_slider s') = 0.
Proof.
  destruct (click_center (tk := qt5) XY_label Examples.viewing_square
              Examples.vol322 150 150) as (s' & Hrun & Hx & Hy).
  - vm_compute. reflexivity.
  - vm_compute. reflexivity.
  - vm_compute. reflexivity.
  - vm_compute. reflexivity.
  - vm_compute. reflexivity.
  - lia.
  - lia.
  - exists s'. split; [exact Hrun|].
    split; (etransitivity; [eassumption|]; vm_compute; reflexivity).
Defined.

(** X11. Clicking further to the right in the image of a view never moves
    the slider of the horizontal axis up, and does not change where the
    slider of the vertical axis goes: the mapping is monotone and mirrored. *)
Theorem click_mirrors_monotonically {tk : Toolkit} (l : label_ref) (s : t)
        (a : np.ndarray3) (px px' py ox oy cw ch : Z) :
  loaded s = true ->
  image_array s = Some a ->
  rect_contains (label l s) (px, py) = true ->
  rect_contains (label l s) (px', py) = true ->
  image_bounds (label l s) = Some (ox, oy, cw, ch) ->
  ox <= px -> px <= px' -> px' < ox + cw ->
  oy <= py < oy + ch ->
  exists s1 s2,
    mousePressEvent l (px, py) s = (Return tt, s1)
    /\ mousePressEvent l (px', py) s = (Return tt, s2)
    /\ value (slider (Spec.slider_of (Spec.horizontal l)) s2)
       <= value (slider (Spec.slider_of (Spec.horizontal l)) s1)
    /\ value (slider (Spec.slider_of (Spec.vertical l)) s2)
       = value (slider (Spec.slider_of (Spec.vertical l)) s1).
Proof.
  intros Hl Ha Hin Hin' Hb H1 H2 H3 Hy.
  destruct (click_inside_run l s a px py ox oy cw ch)
    as (s1 & R1 & X1 & Y1 & _); try assumption; try lia.
  destruct (click_inside_run l s a px' py ox oy cw ch)
    as (s2 & R2 & X2 & Y2 & _); try assumption; try lia.
  exists s1, s2. split; [exact R1|]. split; [exact R2|].
  rewrite X1, X2, Y1, Y2. split; [|reflexivity].
  destruct (loaded_spec s Hl) as (a' & Ha' & Hrect & _).
  assert (a' = a) by congruence. subst a'.
  destruct (rectangular_spec a Hrect) as (E0 & E1 & E2 & _).
  assert (Hsw : 1 <= Spec.extent a (Spec.horizontal l)) by (destruct l; assumption).
  rewrite !mapped_index_div by lia.
  assert ((px - ox) * Spec.extent a (Spec.horizontal l) / cw
          <= (px' - ox) * Spec.extent a (Spec.horizontal l) / cw).
  { apply Z.div_le_mono; [lia | nia]. }
  lia.
Qed.

Lemma click_mirrors_monotonically_witness :
  exists s1 s2,
    mousePressEvent (tk := qt5) XY_label (60, 10) Examples.viewing = (Return tt, s1)
    /\ mousePressEvent (tk := qt5) XY_label (340, 10) Examples.viewing = (Return tt, s2)
    /\ value (zy_slider s2) <= value (zy_slider s1)
    /\ value (xz_slider s2) = value (xz_slider s1).
Proof.
  apply (click_mirrors_monotonically (tk := qt5) XY_label Examples.viewing
           Examples.vol322 60 340 10 50 0 300 300).
  - vm_compute. reflexivity.
  - vm_compute. reflexivity.
  - vm_compute. reflexivity.
  - vm_compute. reflexivity.
  - vm_compute. reflexivity.
  - lia.
  - lia.
  - lia.
  - lia.
Defined.

(** ** Play and pause *)

Lemma set_playing_state_same (s : t) : set_playing_state (playing_state s) s = s.
Proof. destruct s. reflexivity. Qed.

Lemma toggle_branch_run (key : string) (timers : gmap string bool) (s : t)
      (p q : bool) :
  playing_state s !! key = Some p ->
  timers !! key = Some q ->
  toggle_branch key timers s =
    (Return (<[key := negb p]> timers),
     set_playing_state (<[key := negb p]> (playing_state s)) s).
Proof.
  intros Hp Hq. unfold toggle_branch. run. rewrite Hp. simpl.
  rewrite lookup_insert_eq. simpl. rewrite Hq. simpl.
  destruct p; simpl; unfold set_playing_state; simpl;
    rewrite insert_insert_eq; reflexivity.
Qed.

Lemma toggle_play_branch (view : string) (timers : gmap string bool) :
  In view ["xy"; "xz"; "yz"] ->
  toggle_play view timers = toggle_branch view timers.
Proof.
  intros [<-|[<-|[<-|[]]]]; reflexivity.
Qed.

(** X13. Toggling a view flips its playing flag and leaves its timer running
    exactly when the flag is set, without touching the other two views;
    toggling again restores the flags and the timers. *)
Theorem toggle_play_round_trip (view : string) (timers : gmap string bool)
        (s : t) (p : bool) :
  In view ["xy"; "xz"; "yz"] ->
  playing_state s !! view = Some p ->
  timers !! view = Some p ->
  exists timers1 s1,
    toggle_play view timers s = (Return timers1, s1)
    /\ playing_state s1 !! view = Some (negb p)
    /\ timers1 !! view = Some (negb p)
    /\ (forall v, v <> view ->
                  playing_state s1 !! v = playing_state s !! v /\
                  timers1 !! v = timers !! v)
    /\ toggle_play view timers1 s1 = (Return timers, s).
Proof.
  intros Hin Hp Hq. rewrite (toggle_play_branch view timers Hin).
  rewrite (toggle_branch_run view timers s p p Hp Hq).
  eexists. eexists. split; [reflexivity|].
  cbn [playing_state set_playing_state].
  split; [apply lookup_insert_eq|]. split; [apply lookup_insert_eq|].
  split.
  - intros v Hv. split; apply lookup_insert_ne; congruence.
  - rewrite (toggle_play_branch view _ Hin).
    rewrite (toggle_branch_run view _ _ (negb p) (negb p))
      by (cbn [playing_state set_playing_state]; apply lookup_insert_eq).
    cbn [playing_state set_playing_state].
    rewrite !insert_insert_eq, negb_involutive.
    rewrite (insert_id timers view p Hq).
    unfold set_playing_state; simpl.
    rewrite (insert_id (playing_state s) view p Hp).
    f_equal. destruct s; reflexivity.
Qed.

Lemma toggle_play_round_trip_witness :
  exists timers1 s1,
    toggle_play "yz" Examples.timers_stopped Examples.fresh = (Return timers1, s1)
    /\ playing_state s1 !! "yz" = Some true
    /\ timers1 !! "yz" = Some true
    /\ toggle_play "yz" timers1 s1 = (Return Examples.timers_stopped, Examples.fresh).
Proof.
  destruct (toggle_play_round_trip "yz" Examples.timers_stopped Examples.fresh false)
    as (t1 & s1 & H1 & H2 & H3 & _ & H4).
  - simpl. tauto.
  - vm_compute. reflexivity.
  - vm_compute. reflexivity.
  - exists t1, s1. repeat split; assumption.
Defined.

(** X14. A view name other than "xy", "xz" and "yz" is ignored by the play
    button and by the zoom: nothing changes and nothing is raised. That
    includes "zy", the name the brightness and contrast dictionaries use for
    the sagittal view. *)
Theorem unknown_view_ignored (view : string) (timers : gmap string bool)
        (zs : ZoomSliders) (s : t) :
  view <> "xy" -> view <> "xz" -> view <> "yz" ->
  toggle_play view timers s = (Return timers, s)
  /\ adjust_zoom zs view s = (Return tt, s).
Proof.
  intros H1 H2 H3. unfold toggle_play, adjust_zoom.
  apply String.eqb_neq in H1, H2, H3. rewrite H1, H2, H3. split; reflexivity.
Qed.

Lemma unknown_view_ignored_witness :
  toggle_play "zy" Examples.timers_stopped Examples.fresh
  = (Return Examples.timers_stopped, Examples.fresh)
  /\ adjust_zoom Examples.zoom150 "zy" Examples.fresh = (Return tt, Examples.fresh).
Proof. apply unknown_view_ignored; discriminate. Defined.

(** ** Zoom *)

(** X15. With the zoom sliders inside their range 40..200, [adjust_zoom]
    keeps every zoom level between 0.4 and 2 and never repaints: the labels
    show what they showed. *)
Theorem adjust_zoom_keeps_range (zs : ZoomSliders) (view : string) (s : t) :
  40 <= value (xy_zoom_slider zs) <= 200 ->
  40 <= value (xz_zoom_slider zs) <= 200 ->
  40 <= value (zy_zoom_slider zs) <= 200 ->
  (0.4 <= zoom_level_xy s <= 2 /\ 0.4 <= zoom_level_xz s <= 2 /\
   0.4 <= zoom_level_yz s <= 2)%Q ->
  let s' := snd (adjust_zoom zs view s) in
  fst (adjust_zoom zs view s) = Return tt
  /\ (0.4 <= zoom_level_xy s' <= 2 /\ 0.4 <= zoom_level_xz s' <= 2 /\
      0.4 <= zoom_level_yz s' <= 2)%Q
  /\ xy_label s' = xy_label s /\ xz_label s' = xz_label s
  /\ zy_label s' = zy_label s
  /\ view_state s' =
     (image_array s, brightness s, contrast s, current_crosshair s,
      (zoom_level_xy s', zoom_level_xz s', zoom_level_yz s'), playing_state s,
      (xy_slider s, xz_slider s, zy_slider s)).
Proof.
  intros Hxy Hxz Hzy Hz.
  assert (R : forall v : Z, 40 <= v <= 200 -> (0.4 <= inject_Z v / 100 <= 2)%Q).
  { intros v Hv. split.
    - apply Qle_shift_div_l; [reflexivity|].
      change (0.4 * 100)%Q with (400 # 10).
      unfold Qle. simpl. lia.
    - apply Qle_shift_div_r; [reflexivity|].
      unfold Qle. simpl. lia. }
  unfold adjust_zoom.
  destruct (String.eqb view "xy");
    [|destruct (String.eqb view "xz"); [|destruct (String.eqb view "yz")]];
    cbv zeta; cbn; repeat split; try tauto; try (apply R; assumption).
Qed.

Lemma adjust_zoom_keeps_range_witness :
  (0.4 <= zoom_level_xy (Examples.after (adjust_zoom Examples.zoom150 "xy")
                                        Examples.fresh) <= 2)%Q
  /\ (zoom_level_xy (Examples.after (adjust_zoom Examples.zoom150 "xy")
                                    Examples.fresh) == 1.5)%Q.
Proof.
  split; [|vm_compute; reflexivity].
  apply (adjust_zoom_keeps_range Examples.zoom150 "xy" Examples.fresh).
  - vm_compute. split; discriminate.
  - vm_compute. split; discriminate.
  - vm_compute. split; discriminate.
  - vm_compute. repeat split; discriminate.
Defined.

(** ** What a repaint shows *)

Section Painted.

Context {tk : Toolkit}.

Lemma update_image_pixmap (v : label_ref) (s : t) (a : np.ndarray3) (i : Z) :
  image_array s = Some a ->
  np.rectangular a = true ->
  has_planes (brightness s) = true ->
  has_planes (contrast s) = true ->
  0 <= i < Spec.extent a (Spec.normal v) ->
  update_image v i s =
    (Return tt,
     on_label v
       (setPixmap
          (scaled (mkQSize (Spec.extent a (Spec.horizontal v))
                           (Spec.extent a (Spec.vertical v)))
                  (size_times (mkQSize (Spec.extent a (Spec.horizontal v))
                                       (Spec.extent a (Spec.vertical v)))
                              (Spec.zoom_of v s)))) s).
Proof.
  intros Ha Hrect Hb Hc Hi.
  destruct (slice_of_grid v a i Hrect Hi) as (sl & Hsl & Hg).
  apply flip_grid in Hg.
  destruct (rectangular_spec a Hrect) as (H0 & H1 & H2 & _).
  destruct (has_planes_spec _ Hb) as ([b1 Hb1] & [b2 Hb2] & [b3 Hb3]).
  destruct (has_planes_spec _ Hc) as ([c1 Hc1] & [c2 Hc2] & [c3 Hc3]).
  destruct v;
    cbn [Spec.slice_of Spec.vertical Spec.horizontal Spec.zoom_of update_image] in *.
  - edestruct (display_image_run _ XY_label "xy" (zoom_level_xy s) s _ _ b1 c1 Hg)
      as (frame & _ & Hrun); try eassumption.
    unfold update_xy_image. run. rewrite Ha. run. rewrite Hsl. simpl.
    rewrite Hrun. reflexivity.
  - edestruct (display_image_run _ XZ_label "xz" (zoom_level_xz s) s _ _ b2 c2 Hg)
      as (frame & _ & Hrun); try eassumption.
    unfold update_xz_image. run. rewrite Ha. run. rewrite Hsl. simpl.
    rewrite Hrun. reflexivity.
  - edestruct (display_image_run _ ZY_label "zy" (zoom_level_yz s) s _ _ b3 c3 Hg)
      as (frame & _ & Hrun); try eassumption.
    unfold update_zy_image. run. rewrite Ha. run. rewrite Hsl. simpl.
    rewrite Hrun. reflexivity.
Qed.

End Painted.

Lemma update_all_images_paints {tk : Toolkit} (s : t) (a : np.ndarray3) :
  loaded s = true ->
  image_array s = Some a ->
  exists s',
    update_all_images s = (Return tt, s')
    /\ view_state s' = view_state s
    /\ forall v : label_ref,
         label v s' =
         setPixmap
           (scaled (mkQSize (Spec.extent a (Spec.horizontal v))
                            (Spec.extent a (Spec.vertical v)))
                   (size_times (mkQSize (Spec.extent a (Spec.horizontal v))
                                        (Spec.extent a (Spec.vertical v)))
                               (Spec.zoom_of v s)))
           (label v s).
Proof.
  intros Hl Ha0.
  destruct (loaded_spec s Hl) as (a' & Ha & Hrect & Hb & Hc & H0 & H1 & H2).
  assert (a' = a) by congruence. subst a'.
  apply indexes_spec in H0, H1, H2.
  pose proof (update_image_pixmap XY_label s a (value (xy_slider s))
                Ha Hrect Hb Hc ltac:(simpl; lia)) as R1.
  match type of R1 with _ = (_, ?s1) =>
    pose proof (update_image_pixmap XZ_label s1 a (value (xz_slider s))
                  Ha Hrect Hb Hc ltac:(simpl; lia)) as R2 end.
  match type of R2 with _ = (_, ?s2) =>
    pose proof (update_image_pixmap ZY_label s2 a (value (zy_slider s))
                  Ha Hrect Hb Hc ltac:(simpl; lia)) as R3 end.
  cbn [update_image] in R1, R2, R3.
  eexists. split; [|split].
  - unfold update_all_images.
    unfold bind at 1, gets at 1. unfold bind at 1, gets at 1.
    unfold bind at 1, gets at 1.
    rewrite (bind_run _ _ _ _ _ R1), (bind_run _ _ _ _ _ R2). exact R3.
  - reflexivity.
  - intros v. destruct v; reflexivity.
Qed.

(** X16. A repaint of a loaded viewer gives every label the pixmap of its
    slice (as wide as the horizontal and as high as the vertical axis of the
    view), scaled to that size times the zoom level of the view; the size of
    the label itself does not change. *)
Theorem repaint_pixmaps {tk : Toolkit} (s : t) (a : np.ndarray3) :
  loaded s = true ->
  image_array s = Some a ->
  exists s',
    update_all_images s = (Return tt, s')
    /\ forall v : label_ref,
         label v s' =
         setPixmap
           (scaled (mkQSize (Spec.extent a (Spec.horizontal v))
                            (Spec.extent a (Spec.vertical v)))
                   (size_times (mkQSize (Spec.extent a (Spec.horizontal v))
                                        (Spec.extent a (Spec.vertical v)))
                               (Spec.zoom_of v s)))
           (label v s).
Proof.
  intros Hl Ha.
  destruct (update_all_images_paints s a Hl Ha) as (s' & Hrun & _ & Hlab).
  exists s'. split; assumption.
Qed.

Lemma repaint_pixmaps_witness :
  exists s',
    update_all_images (tk := qt5) Examples.viewing = (Return tt, s')
    /\ pixmap (xy_label s') = Some (mkQSize 1 1)
    /\ width (xy_label s') = 400.
Proof.
  destruct (repaint_pixmaps (tk := qt5) Examples.viewing Examples.vol322)
    as (s' & Hrun & Hlab).
  - vm_compute. reflexivity.
  - vm_compute. reflexivity.
  - exists s'. split; [exact Hrun|].
    pose proof (Hlab XY_label) as H.
    split.
    + etransitivity; [exact (f_equal pixmap H)|]. vm_compute. reflexivity.
    + etransitivity; [exact (f_equal width H)|]. vm_compute. reflexivity.
Defined.

(** ** The flip convention *)

Section Rotation.

Lemma index_nth {A : Type} (l : list A) (i : Z) (x d : A) :
  0 <= i -> Py.index l i = Some x -> nth (Z.to_nat i) l d = x.
Proof.
  intros Hi. unfold Py.index.
  destruct ((0 <=? i) && (i <? Z.of_nat (length l))).
  - apply nth_lookup_Some.
  - replace (i <? 0) with false by (symmetry; apply Z.ltb_ge; lia).
    rewrite andb_false_r. discriminate.
Qed.

Lemma mapM_nth {A B : Type} (f : A -> option B) (l : list A) (k : list B)
      (n : nat) (dA : A) (dB : B) :
  mapM f l = Some k -> (n < length l)%nat ->
  f (nth n l dA) = Some (nth n k dB).
Proof.
  intros H. apply mapM_Some_1 in H. revert n.
  induction H as [|x y l k Hxy _ IH]; intros n Hn; simpl in *; [lia|].
  destruct n; [exact Hxy | apply IH; lia].
Qed.

(** The rotated slice read at [(i, j)] is the slice read at the mirrored
    position. *)
Lemma rotated_pixel (sl : np.ndarray2) (h w i j : Z) :
  np.is_grid sl h w -> 0 <= i < h -> 0 <= j < w ->
  Spec.pixel (np.flipud (np.fliplr sl)) i j = Spec.pixel sl (h - 1 - i) (w - 1 - j).
Proof.
  intros [Hh Hw] Hi Hj. unfold Spec.pixel, np.flipud, np.fliplr.
  rewrite rev_nth by (rewrite length_map; lia).
  rewrite length_map.
  replace [] with (rev (@nil Q)) at 1 by reflexivity.
  rewrite map_nth.
  replace (length sl - S (Z.to_nat i))%nat with (Z.to_nat (h - 1 - i)) by lia.
  assert (Hrow : Z.of_nat (length (nth (Z.to_nat (h - 1 - i)) sl [])) = w).
  { rewrite Forall_forall in Hw. apply Hw, list_elem_of_In, nth_In. lia. }
  rewrite rev_nth by lia.
  f_equal. lia.
Qed.

(** The slice of a view read at [(v, h)] is the voxel at [v] and [h] along
    the axes the view spans. *)
Lemma slice_pixel (l : label_ref) (a : np.ndarray3) (sl : np.ndarray2)
      (idx v h : Z) :
  np.rectangular a = true ->
  Spec.slice_of l a idx = Some sl ->
  0 <= idx < Spec.extent a (Spec.normal l) ->
  0 <= v < Spec.extent a (Spec.vertical l) ->
  0 <= h < Spec.extent a (Spec.horizontal l) ->
  Spec.pixel sl v h = Spec.voxel a (Spec.at_axes l idx v h).
Proof.
  intros Hrect Hsl Hidx Hv Hh.
  destruct (rectangular_spec a Hrect) as (E0 & E1 & E2 & Hlen & Hplanes).
  unfold Spec.pixel, Spec.voxel.
  destruct l; cbn [Spec.slice_of Spec.normal Spec.vertical Spec.horizontal
                   Spec.at_axes] in *.
  - unfold np.take0 in Hsl.
    rewrite (index_nth a idx sl [] ltac:(lia) Hsl). reflexivity.
  - unfold np.take1 in Hsl.
    pose proof (mapM_nth _ a sl (Z.to_nat v) [] [] Hsl ltac:(lia)) as Hrow.
    cbv beta in Hrow.
    rewrite (index_nth _ idx _ [] ltac:(lia) Hrow). reflexivity.
  - unfold np.take2 in Hsl.
    pose proof (mapM_nth _ a sl (Z.to_nat v) [] [] Hsl ltac:(lia)) as Hrow.
    cbv beta in Hrow.
    assert (Hpl : Z.of_nat (length (nth (Z.to_nat v) a [])) = Spec.extent a Spec.Axis1).
    { rewrite Forall_forall in Hplanes.
      apply (Hplanes (nth (Z.to_nat v) a [])), list_elem_of_In, nth_In. lia. }
    pose proof (mapM_nth _ _ _ (Z.to_nat h) [] 0%Q Hrow ltac:(lia)) as Hx.
    cbv beta in Hx.
    rewrite (index_nth _ idx _ 0%Q ltac:(lia) Hx). reflexivity.
Qed.

Lemma rotated_slice_voxel (l : label_ref) (a : np.ndarray3) (sl : np.ndarray2)
      (idx iy ix : Z) :
  np.rectangular a = true ->
  Spec.slice_of l a idx = Some sl ->
  0 <= idx < Spec.extent a (Spec.normal l) ->
  0 <= iy < Spec.extent a (Spec.vertical l) ->
  0 <= ix < Spec.extent a (Spec.horizontal l) ->
  Spec.pixel (np.flipud (np.fliplr sl)) iy ix =
  Spec.voxel a (Spec.at_axes l idx
                  (Spec.extent a (Spec.vertical l) - 1 - iy)
                  (Spec.extent a (Spec.horizontal l) - 1 - ix)).
Proof.
  intros Hrect Hsl Hidx Hiy Hix.
  destruct (slice_of_grid l a idx Hrect Hidx) as (sl' & Hsl' & Hg).
  assert (sl' = sl) by congruence. subst sl'.
  rewrite (rotated_pixel sl _ _ iy ix Hg Hiy Hix).
  apply (slice_pixel l a sl idx); try assumption; lia.
Qed.

End Rotation.

(** X17. What a view displays at row [iy], column [ix] of its rotated slice
    is the voxel at [idx] along the axis of the view's slider, at
    [extent - 1 - iy] along its vertical and at [extent - 1 - ix] along its
    horizontal axis. *)
Theorem displayed_voxel (l : label_ref) (a : np.ndarray3) (sl : np.ndarray2)
        (idx iy ix : Z) :
  np.rectangular a = true ->
  Spec.slice_of l a idx = Some sl ->
  0 <= idx < Spec.extent a (Spec.normal l) ->
  0 <= iy < Spec.extent a (Spec.vertical l) ->
  0 <= ix < Spec.extent a (Spec.horizontal l) ->
  Spec.pixel (np.flipud (np.fliplr sl)) iy ix =
  Spec.voxel a (Spec.at_axes l idx
                  (Spec.extent a (Spec.vertical l) - 1 - iy)
                  (Spec.extent a (Spec.horizontal l) - 1 - ix)).
Proof.
  apply rotated_slice_voxel.
Qed.

Lemma displayed_voxel_witness :
  Spec.pixel (np.flipud (np.fliplr [[40; 50]; [60; 70]]%Q)) 0 1 = 60%Q
  /\ Spec.voxel Examples.vol322 (1, 1, 0) = 60%Q.
Proof.
  pose proof (displayed_voxel XY_label Examples.vol322 [[40; 50]; [60; 70]]%Q 1 0 1)
    as H.
  split.
  - rewrite H; try (vm_compute; reflexivity);
      change (Spec.extent Examples.vol322 _) with 3
      || change (Spec.extent Examples.vol322 _) with 2; lia.
  - vm_compute. reflexivity.
Defined.

(** ** Doubles and exact arithmetic *)

Section DoubleAgrees.

Context {tk : Toolkit}.




End DoubleAgrees.



(** X24. The click handlers and the display use the same flip: the voxel
    that the three sliders address after a click inside the image of a
    view is the one at row [iy], column [ix] of the rotated slice the view
    is painted from, [ix] and [iy] being the indices the handler computed
    in doubles. *)
Theorem double_click_selects_slice_pixel {tk : Toolkit} (l : label_ref)
        (s : t) (a : np.ndarray3) (sl : np.ndarray2)
        (px py ox oy cw ch ix iy : Z) :
  loaded s = true ->
  image_array s = Some a ->
  Spec.slice_of l a (value (slider (Spec.slider_of (Spec.normal l)) s)) = Some sl ->
  rect_contains (label l s) (px, py) = true ->
  image_bounds (label l s) = Some (ox, oy, cw, ch) ->
  ox <= px < ox + cw ->
  oy <= py < oy + ch ->
  Double.image_index (px - ox) cw (Spec.extent a (Spec.horizontal l)) = Return ix ->
  Double.image_index (py - oy) ch (Spec.extent a (Spec.vertical l)) = Return iy ->
  0 <= ix < Spec.extent a (Spec.horizontal l) ->
  0 <= iy < Spec.extent a (Spec.vertical l) ->
  exists s',
    Double.mousePressEvent l (px, py) s = (Return tt, s')
    /\ Spec.pixel (np.flipud (np.fliplr sl)) iy ix
       = Spec.voxel a
           (Spec.at_axes l
              (value (slider (Spec.slider_of (Spec.normal l)) s'))
              (value (slider (Spec.slider_of (Spec.vertical l)) s'))
              (value (slider (Spec.slider_of (Spec.horizontal l)) s'))).
Proof.
  intros Hl Ha Hsl Hin Hb Hx Hy Hix Hiy Rix Riy.
  destruct (double_click_inside_run l s a px py ox oy cw ch ix iy
              Hl Ha Hin Hb Hx Hy Hix Hiy)
    as (s' & Hrun & _ & _ & Vx & Vy & Vn & _).
  exists s'. split; [exact Hrun|]. rewrite (Vx Rix), (Vy Riy), Vn.
  destruct (loaded_spec s Hl) as (a' & Ha' & Hrect & _ & _ & I0 & I1 & I2).
  assert (a' = a) by congruence. subst a'.
  apply indexes_spec in I0, I1, I2.
  apply rotated_slice_voxel; try assumption.
  destruct l; simpl; lia.
Qed.

Lemma double_click_selects_slice_pixel_witness :
  exists s',
    Double.mousePressEvent (tk := qt5) XY_label (224, 10) Examples.viewing_50
    = (Return tt, s')
    /\ Spec.voxel Examples.vol_3_50_50
         (value (xy_slider s'), value (xz_slider s'), value (zy_slider s'))
       = 21%Q.
Proof.
  destruct (double_click_selects_slice_pixel (tk := qt5) XY_label
              Examples.viewing_50 Examples.vol_3_50_50
              (map (map inject_Z) (repeat (map Z.of_nat (seq 0 50)) 50))
              224 10 50 0 300 300 28 1)
    as (s' & Hrun & Hv).
  - vm_compute. reflexivity.
  - vm_compute. reflexivity.
  - vm_compute. reflexivity.
  - vm_compute. reflexivity.
  - vm_compute. reflexivity.
  - lia.
  - lia.
  - vm_compute. reflexivity.
  - vm_compute. reflexivity.
  - change (Spec.extent Examples.vol_3_50_50 _) with 50. lia.
  - change (Spec.extent Examples.vol_3_50_50 _) with 50. lia.
  - exists s'. split; [exact Hrun|].
    etransitivity; [symmetry; exact Hv|]. vm_compute. reflexivity.
Defined.


(** ** The 3D renderer *)

(** X19. The transfer functions are rebuilt from scratch: what they held
    before does not matter, and on a volume without voxels both are left
    empty and [ValueError] is raised. *)
Theorem initialize_transfer_functions_rebuilds (a : np.ndarray3)
        (self self' : VolumeRenderer.t) :
  VolumeRenderer.initialize_transfer_functions a self =
  VolumeRenderer.initialize_transfer_functions a self'
  /\ (concat (concat a) = [] ->
      VolumeRenderer.initialize_transfer_functions a self =
      (Raise ValueError, VolumeRenderer.mk [] [])).
Proof.
  split; [reflexivity|].
  intros He. unfold VolumeRenderer.initialize_transfer_functions, np.min3, np.reduce.
  rewrite He. reflexivity.
Qed.

(** X20. Handing the renderer an array always removes what it rendered
    before: afterwards it holds at most one volume, and if it holds one the
    call returned normally, the dtype is one of the four supported ones, and
    the data extent is [(shape[2] - 1, shape[1] - 1, shape[0] - 1)]. With
    any other dtype the renderer is left empty, the transfer functions keep
    their old control points and a critical message is shown. *)
Theorem load_image_replaces_volume (d : VolumeRenderer.dtype) (a : np.ndarray3)
        (self : VolumeRenderer.widget) :
  let r := VolumeRenderer.load_image (Some (d, a)) self in
  (length (VolumeRenderer.view_props (snd r)) <= 1)%nat
  /\ (forall v, In v (VolumeRenderer.view_props (snd r)) ->
                fst r = Return tt
                /\ VolumeRenderer.vtk_data_type d = Some (VolumeRenderer.scalar_type v)
                /\ VolumeRenderer.data_extent v =
                   (Spec.extent a Spec.Axis2 - 1, Spec.extent a Spec.Axis1 - 1,
                    Spec.extent a Spec.Axis0 - 1))
  /\ (VolumeRenderer.vtk_data_type d = None ->
      r = (Return tt,
           VolumeRenderer.mkWidget (VolumeRenderer.functions self) []
             (VolumeRenderer.messages self
              ++ [VolumeRenderer.Critical "Unsupported Data Type"]))).
Proof.
  cbv zeta. unfold VolumeRenderer.load_image, Spec.extent.
  destruct (VolumeRenderer.vtk_data_type d) as [ty|].
  - destruct (np.shape3 a) as [[d0 d1] d2].
    destruct (VolumeRenderer.initialize_transfer_functions a
                (VolumeRenderer.functions self)) as [[[]|e] tfs]; simpl.
    + split; [lia|]. split; [|discriminate].
      intros v [<-|[]]. repeat split.
    + split; [lia|]. split; [intros v []|discriminate].
  - simpl. split; [lia|]. split; [intros v []|reflexivity].
Qed.

(** ** Repainting again *)

Lemma state_eq (s1 s2 : t) :
  view_state s1 = view_state s2 ->
  (forall v, label v s1 = label v s2) ->
  s1 = s2.
Proof.
  intros Hv Hl.
  pose proof (Hl XY_label) as L1. pose proof (Hl XZ_label) as L2.
  pose proof (Hl ZY_label) as L3.
  destruct s1, s2. unfold view_state in Hv. simpl in *.
  injection Hv. intros. subst. reflexivity.
Qed.

Lemma view_state_zoom (s s' : t) (v : label_ref) :
  view_state s' = view_state s -> Spec.zoom_of v s' = Spec.zoom_of v s.
Proof.
  unfold view_state. intros H. injection H. intros.
  destruct v; simpl; assumption.
Qed.

(** X21. Repainting a loaded viewer twice is the same as repainting it
    once: the second repaint returns normally and leaves every attribute and
    every label as the first one left them. *)
Theorem repaint_idempotent {tk : Toolkit} (s : t) :
  loaded s = true ->
  exists s',
    update_all_images s = (Return tt, s')
    /\ update_all_images s' = (Return tt, s').
Proof.
  intros Hl. destruct (loaded_spec s Hl) as (a & Ha & _).
  destruct (update_all_images_paints s a Hl Ha) as (s1 & R1 & V1 & L1).
  assert (Hl1 : loaded s1 = true) by (rewrite (loaded_view_state _ _ V1); exact Hl).
  assert (Ha1 : image_array s1 = Some a).
  { destruct (view_state_fields _ _ V1) as (Ea & _). congruence. }
  destruct (update_all_images_paints s1 a Hl1 Ha1) as (s2 & R2 & V2 & L2).
  exists s1. split; [exact R1|]. rewrite R2. f_equal.
  apply state_eq; [exact V2|].
  intros v. rewrite L2, (view_state_zoom _ _ v V1), L1. reflexivity.
Qed.

Lemma repaint_idempotent_witness :
  exists s',
    update_all_images (tk := qt5) Examples.viewing = (Return tt, s')
    /\ update_all_images (tk := qt5) s' = (Return tt, s').
Proof. apply (repaint_idempotent (tk := qt5)). vm_compute. reflexivity. Defined.

(** X22. The crosshair timer never changes the volume, a slider, the
    brightness, the contrast, the zoom or the crosshair, whatever the repaint
    does; while no crosshair is set it does nothing at all, and on a loaded
    viewer it returns normally. *)
Theorem update_crosshair_only_repaints {tk : Toolkit} (s : t) :
  view_state (snd (update_crosshair s)) = view_state s
  /\ (current_crosshair s = None -> update_crosshair s = (Return tt, s))
  /\ (loaded s = true -> fst (update_crosshair s) = Return tt).
Proof.
  unfold update_crosshair. run. destruct (current_crosshair s) as [c|].
  - split; [apply repaints_update_all_images|]. split; [discriminate|].
    intros Hl. destruct (update_all_images_run s Hl) as (s' & Hrun & _).
    rewrite Hrun. reflexivity.
  - repeat split.
Qed.

Lemma update_crosshair_only_repaints_witness :
  update_crosshair (tk := qt5) Examples.viewing = (Return tt, Examples.viewing).
Proof.
  destruct (update_crosshair_only_repaints (tk := qt5) Examples.viewing)
    as (_ & H & _).
  apply H. vm_compute. reflexivity.
Defined.

Lemma initialize_transfer_functions_rebuilds_witness :
  VolumeRenderer.initialize_transfer_functions [[[]]]
    (snd (VolumeRenderer.initialize_transfer_functions
            Examples.vol_0_1000 (VolumeRenderer.mk [] [])))
  = (Raise ValueError, VolumeRenderer.mk [] []).
Proof.
  apply (initialize_transfer_functions_rebuilds [[[]]] _ (VolumeRenderer.mk [] [])).
  reflexivity.
Defined.

Lemma load_image_replaces_volume_witness :
  VolumeRenderer.load_image
    (Some (VolumeRenderer.other_dtype, Examples.vol322))
    (VolumeRenderer.mkWidget
       (VolumeRenderer.mk [] [])
       [VolumeRenderer.mkVolume VolumeRenderer.VTK_FLOAT (1, 1, 0)] [])
  = (Return tt,
     VolumeRenderer.mkWidget (VolumeRenderer.mk [] []) []
       [VolumeRenderer.Critical "Unsupported Data Type"]).
Proof.
  apply (load_image_replaces_volume VolumeRenderer.other_dtype Examples.vol322).
  reflexivity.
Defined.
